(** * tsh: the job-control core of the tiny shell (src/tsh.c)

    A shallow embedding of the job table, of command dispatch ([eval],
    [builtin_cmd], [do_bgfg], [waitfg]) and of the signal handlers of
    [src/tsh.c], followed by the properties of the job-control core.

    Conventions of the embedding.
    - C [int] and [pid_t] values are [Z].  The only arithmetic of the
      modelled code is [nextjid++] and [maxjid(jobs)+1], which raise the
      largest job id in use by one per call at most; overflow of [int]
      (undefined in C) is more than 2^31 calls away and is not modelled.
      [atoi] has its wrap-around written out.
    - C strings are [string]; [stdout] is the text written so far.
    - The array [jobs[MAXJOBS]] is a [list job_t]; a [struct job_t *] into it
      is the index of the slot, [NULL] is [None].
    - The process state is a record [shell]; a C function is a function from
      the state to an [outcome]: it returns, the process exits, it
      dereferences [NULL], or execve replaces the process image.
    - What the operating system answers ([fork], [execve], [kill],
      [waitpid]) is an argument of the function that asks.
    - Signals arrive at any time.  A function of the embedding is the C
      function with no handler run inside it, but for eval, inside which
      the SIGCHLD that is pending when it unblocks the signal is delivered;
      the handlers that run between the statements of do_bgfg and around
      the calls are steps of the running shell ([step]). *)

From Stdlib Require Import Ascii.
From stdpp Require Import base list numbers strings pretty relations.

Local Open Scope Z_scope.

(** ** Manifest constants *)

Definition MAXJOBS : Z := 16.

Definition UNDEF : Z := 0.
Definition FG : Z := 1.
Definition BG : Z := 2.
Definition ST : Z := 3.

(** Signal and error numbers of <signal.h> and <errno.h> (Linux). *)
Definition SIGINT : Z := 2.
Definition SIGCHLD : Z := 17.
Definition SIGCONT : Z := 18.
Definition SIGTSTP : Z := 20.

Definition EPERM : Z := 1.
Definition ESRCH : Z := 3.
Definition EINTR : Z := 4.
Definition ECHILD : Z := 10.
Definition EAGAIN : Z := 11.
Definition ENOMEM : Z := 12.
Definition EINVAL : Z := 22.
Definition ENOSYS : Z := 38.

(** ** Data *)

Record job_t := Job {
  job_pid : Z;
  job_jid : Z;
  job_state : Z;
  job_cmdline : string
}.

Record shell := Shell {
  jobs : list job_t;          (* struct job_t jobs[MAXJOBS] *)
  nextjid : Z;                (* int nextjid *)
  verbose : bool;             (* int verbose, only ever tested for truth *)
  errno : Z;                  (* errno of <errno.h> *)
  sigchld_blocked : bool;     (* SIGCHLD is in the process signal mask *)
  stdout : string;            (* everything written to descriptor 1 *)
  killed : list (Z * Z)       (* the kill(pid, sig) calls made, in order *)
}.

Definition set_jobs (js : list job_t) (s : shell) : shell :=
  Shell js (nextjid s) (verbose s) (errno s) (sigchld_blocked s) (stdout s) (killed s).
Definition set_nextjid (n : Z) (s : shell) : shell :=
  Shell (jobs s) n (verbose s) (errno s) (sigchld_blocked s) (stdout s) (killed s).
Definition set_errno (e : Z) (s : shell) : shell :=
  Shell (jobs s) (nextjid s) (verbose s) e (sigchld_blocked s) (stdout s) (killed s).
Definition set_sigchld_blocked (b : bool) (s : shell) : shell :=
  Shell (jobs s) (nextjid s) (verbose s) (errno s) b (stdout s) (killed s).
Definition put (text : string) (s : shell) : shell :=
  Shell (jobs s) (nextjid s) (verbose s) (errno s) (sigchld_blocked s)
        (stdout s +:+ text) (killed s).
Definition record_kill (target sig : Z) (s : shell) : shell :=
  Shell (jobs s) (nextjid s) (verbose s) (errno s) (sigchld_blocked s) (stdout s)
        (killed s ++ [(target, sig)]).

(** ** Outcomes of a call *)

Inductive outcome (A : Type) : Type :=
| Ret (a : A) (s : shell)        (* the call returns a *)
| Exit (code : Z) (s : shell)    (* exit(code) was called *)
| Fault (s : shell)              (* a NULL pointer was dereferenced *)
| Replaced (path : string) (argv : list string) (s : shell).
                                 (* execve succeeded: the shell's code is gone *)
Arguments Ret {A} a s.
Arguments Exit {A} code s.
Arguments Fault {A} s.
Arguments Replaced {A} path argv s.

Definition M (A : Type) : Type := shell → outcome A.

Definition ret {A} (a : A) : M A := λ s, Ret a s.
Definition bind {A B} (m : M A) (k : A → M B) : M B := λ s,
  match m s with
  | Ret a s' => k a s'
  | Exit c s' => Exit c s'
  | Fault s' => Fault s'
  | Replaced p a s' => Replaced p a s'
  end.

#[global] Instance M_ret : MRet M := @ret.
#[global] Instance M_bind : MBind M := λ A B k m, bind m k.

Definition get : M shell := λ s, Ret s s.
Definition modify (f : shell → shell) : M unit := λ s, Ret () (f s).
Definition printf (text : string) : M unit := modify (put text).
Definition exit {A} (code : Z) : M A := λ s, Exit code s.
Definition when (b : bool) (m : M unit) : M unit := if b then m else ret ().

(** The newline character and the [%d] conversion of printf. *)
Definition NL : string := String (Ascii.ascii_of_nat 10) "".

Definition dec (n : Z) : string := pretty n.

(** ** Helper routines that manipulate the job list *)

(** clearjob - Clear the entries in a job struct *)
Definition clearjob (job : job_t) : job_t := Job 0 0 UNDEF "".

(** initjobs - Initialize the job list *)
Definition initjobs (js : list job_t) : list job_t := clearjob <$> js.

(** maxjid - Returns largest allocated job ID *)
Definition maxjid (js : list job_t) : Z :=
  foldl (λ max job, if job_jid job >? max then job_jid job else max) 0 js.

(** The scans [for (i = 0; i < MAXJOBS; i++) if (jobs[i].f == v) ...]:
    the first slot whose field has the value, with its index. *)
Definition first_slot (f : job_t → Z) (v : Z) (js : list job_t) : option (nat * job_t) :=
  list_find (λ job, f job = v) js.

(** addjob - Add a job to the job list *)
Definition addjob (pid state : Z) (cmdline : string) : M bool := λ s,
  if pid <? 1 then Ret false s
  else match first_slot job_pid 0 (jobs s) with
       | Some (i, _) =>
           let job := Job pid (nextjid s) state cmdline in
           let s := set_jobs (<[i:=job]> (jobs s)) (set_nextjid (nextjid s + 1) s) in
           let s := if nextjid s >? MAXJOBS then set_nextjid 1 s else s in
           let s := if verbose s
                    then put ("Added job [" +:+ dec (job_jid job) +:+ "] " +:+
                              dec (job_pid job) +:+ " " +:+ job_cmdline job +:+ NL) s
                    else s in
           Ret true s
       | None => Ret false (put ("Tried to create too many jobs" +:+ NL) s)
       end.

(** deletejob - Delete a job whose PID=pid from the job list *)
Definition deletejob (pid : Z) : M bool := λ s,
  if pid <? 1 then Ret false s
  else match first_slot job_pid pid (jobs s) with
       | Some (i, job) =>
           let js := <[i:=clearjob job]> (jobs s) in
           Ret true (set_nextjid (maxjid js + 1) (set_jobs js s))
       | None => Ret false s
       end.

(** fgpid - Return PID of current foreground job, 0 if no such job *)
Definition fgpid (js : list job_t) : Z :=
  match first_slot job_state FG js with
  | Some (_, job) => job_pid job
  | None => 0
  end.

(** getjobpid - Find a job (by PID) on the job list *)
Definition getjobpid (js : list job_t) (pid : Z) : option nat :=
  if pid <? 1 then None else fst <$> first_slot job_pid pid js.

(** getjobjid - Find a job (by JID) on the job list *)
Definition getjobjid (js : list job_t) (jid : Z) : option nat :=
  if jid <? 1 then None else fst <$> first_slot job_jid jid js.

(** pid2jid - Map process ID to job ID *)
Definition pid2jid (js : list job_t) (pid : Z) : Z :=
  if pid <? 1 then 0
  else match first_slot job_pid pid js with
       | Some (_, job) => job_jid job
       | None => 0
       end.

(** listjobs - Print the job list *)
Definition listjobs_line (i : nat) (job : job_t) : string :=
  if job_pid job =? 0 then ""
  else "[" +:+ dec (job_jid job) +:+ "] (" +:+ dec (job_pid job) +:+ ") " +:+
       (if job_state job =? BG then "Running "
        else if job_state job =? FG then "Foreground "
        else if job_state job =? ST then "Stopped "
        else "listjobs: Internal error: job[" +:+ dec (Z.of_nat i) +:+ "].state=" +:+
             dec (job_state job) +:+ " ") +:+
       job_cmdline job.

Definition listjobs : M unit := λ s,
  Ret () (put (foldr String.append "" (imap listjobs_line (jobs s))) s).

(** Access through a [struct job_t *]: [jid->f] reads and [jid->state = v]
    writes the slot; through [NULL] the process faults. *)
Definition load (jid : option nat) : M job_t := λ s,
  match jid ≫= (λ i, jobs s !! i) with
  | Some job => Ret job s
  | None => Fault s
  end.

Definition store_state (jid : option nat) (v : Z) : M unit := λ s,
  match jid with
  | Some i =>
      match jobs s !! i with
      | Some job =>
          Ret () (set_jobs (<[i:=Job (job_pid job) (job_jid job) v (job_cmdline job)]> (jobs s)) s)
      | None => Fault s
      end
  | None => Fault s
  end.

(** ** The C library *)

(** strerror: glibc's texts for 0 and for the error numbers that fork,
    kill and waitpid document (EAGAIN, ENOMEM, ENOSYS; EPERM, ESRCH, EINVAL;
    EINTR, ECHILD, EINVAL).  The last line is what glibc answers for a
    number it has no text for; for the numbers between 1 and 133 that are
    not listed glibc has texts that are not modelled, and the properties
    stay with the numbers listed. *)
Definition strerror (e : Z) : string :=
  if e =? 0 then "Success"
  else if e =? EPERM then "Operation not permitted"
  else if e =? ESRCH then "No such process"
  else if e =? EINTR then "Interrupted system call"
  else if e =? ECHILD then "No child processes"
  else if e =? EAGAIN then "Resource temporarily unavailable"
  else if e =? ENOMEM then "Cannot allocate memory"
  else if e =? EINVAL then "Invalid argument"
  else if e =? ENOSYS then "Function not implemented"
  else "Unknown error " +:+ dec e.

Definition isspace (c : ascii) : bool :=
  match c with
  | "009" | "010" | "011" | "012" | "013" | " " => true
  | _ => false
  end%char.

Definition digit (c : ascii) : option Z :=
  let n := Z.of_nat (nat_of_ascii c) in
  if (48 <=? n) && (n <=? 57) then Some (n - 48) else None.

Fixpoint skip_isspace (str : string) : string :=
  match str with
  | String c rest => if isspace c then skip_isspace rest else str
  | EmptyString => str
  end.

Fixpoint digits (acc : Z) (str : string) : Z :=
  match str with
  | String c rest =>
      match digit c with
      | Some d => digits (10 * acc + d) rest
      | None => acc
      end
  | EmptyString => acc
  end.

(** strtol(str, NULL, 10) with a 64-bit long: white space, a sign, digits;
    the value saturates at LONG_MIN and LONG_MAX. *)
Definition strtol (str : string) : Z :=
  let v := match skip_isspace str with
           | String "-"%char rest => - digits 0 rest
           | String "+"%char rest => digits 0 rest
           | rest => digits 0 rest
           end in
  Z.max (- 2 ^ 63) (Z.min (2 ^ 63 - 1) v).

(** The conversion of a long to a 32-bit int. *)
Definition to_int (n : Z) : Z := (n + 2 ^ 31) mod 2 ^ 32 - 2 ^ 31.

(** atoi, as glibc has it: (int) strtol(str, NULL, 10).  Its value only:
    when strtol saturates it also stores ERANGE in errno, which is left
    out.  No number of the properties below is out of the range of a long,
    and with errno at ERANGE the handler of SIGCHLD ends the shell, so that
    the running shell reaches no state that the embedding does not
    reach. *)
Definition atoi (str : string) : Z := to_int (strtol str).

(** [str[0] == c] and [str + 1] on a C string.  One past the terminator of
    an empty string the code reads the bytes that follow it in parseline's
    buffer; the only such read, in do_bgfg, is of a value that the test
    [argv[1][0] == '%'] next to it makes irrelevant. *)
Definition starts_with (c : ascii) (str : string) : bool :=
  match str with
  | String x _ => bool_decide (x = c)
  | EmptyString => false
  end.

Definition plus1 (str : string) : string :=
  match str with
  | String _ rest => rest
  | EmptyString => EmptyString
  end.

(** ** Other helper routines *)

(** unix_error - unix-style error routine *)
Definition unix_error {A} (msg : string) : M A :=
  s ← get;
  printf (msg +:+ ": " +:+ strerror (errno s) +:+ NL);;
  exit 1.

(** app_error - application-style error routine *)
Definition app_error {A} (msg : string) : M A :=
  printf (msg +:+ NL);;
  exit 1.

(** ** Mask section: the wrappers *)

(** What fork() answers. *)
Inductive fork_answer :=
| ForkFailed (e : Z)             (* -1, errno = e *)
| ForkChild                      (* 0: this process is the child *)
| ForkParent (child : positive). (* the pid of the child *)

Definition Fork (a : fork_answer) : M Z :=
  match a with
  | ForkFailed e => modify (set_errno e);; unix_error "Fork error"
  | ForkChild => ret 0
  | ForkParent child => ret (Z.pos child)
  end.

(** Kill: [r] is what kill() answers, [None] for 0 and [Some e] for -1 with
    errno = e.  ESRCH is allowed. *)
Definition Kill (pid signum : Z) (r : option Z) : M unit :=
  modify (record_kill pid signum);;
  match r with
  | None => ret ()
  | Some e =>
      modify (set_errno e);;
      if negb (e =? ESRCH) then unix_error "Kill error" else ret ()
  end.

(** ** Signal handlers *)

(** The status waitpid stores, by the macro that holds of it. *)
Inductive wstatus :=
| Stopped (sig : Z)
| Signaled (sig : Z)
| Exited (code : Z).

Definition WIFSTOPPED (status : wstatus) : bool :=
  match status with Stopped _ => true | _ => false end.
Definition WIFSIGNALED (status : wstatus) : bool :=
  match status with Signaled _ => true | _ => false end.
Definition WIFEXITED (status : wstatus) : bool :=
  match status with Exited _ => true | _ => false end.
Definition WSTOPSIG (status : wstatus) : Z :=
  match status with Stopped sig => sig | _ => 0 end.
Definition WTERMSIG (status : wstatus) : Z :=
  match status with Signaled sig => sig | _ => 0 end.

(** How waitpid(-1, &status, WNOHANG|WUNTRACED) ends the loop: it answers 0
    (children exist, none has changed state) and leaves errno alone, or it
    answers -1 and sets errno. *)
Inductive wait_end :=
| NoChange
| WaitFailed (e : Z).

(** The body of the loop, for one child whose pid waitpid returned. *)
Definition reap (pid : Z) (status : wstatus) : M unit :=
  s ← get;
  let jobid := pid2jid (jobs s) pid in
  (if WIFSTOPPED status then
     store_state (getjobpid (jobs s) pid) ST;;
     printf ("Job [" +:+ dec jobid +:+ "] (" +:+ dec pid +:+ ") stopped by signal " +:+
             dec (WSTOPSIG status) +:+ " " +:+ NL)
   else ret ());;
  (if WIFSIGNALED status then
     deletejob pid;;
     v ← get;
     when (verbose v)
       (printf ("sigchld_handler: Job [" +:+ dec jobid +:+ "] (" +:+ dec pid +:+ ") deleted " +:+ NL));;
     printf ("Job [" +:+ dec jobid +:+ "] (" +:+ dec pid +:+ ") terminated by signal " +:+
             dec (WTERMSIG status) +:+ " " +:+ NL)
   else ret ());;
  (if WIFEXITED status then
     deletejob pid;;
     v ← get;
     when (verbose v)
       (printf ("sigchld_handler: Job [" +:+ dec jobid +:+ "] (" +:+ dec pid +:+ ") deleted " +:+ NL);;
        printf ("sigchld_handler: Job [" +:+ dec jobid +:+ "] (" +:+ dec pid +:+
                ") terminated okay (status 0) " +:+ NL))
   else ret ()).

Fixpoint reap_all (reaped : list (positive * wstatus)) : M unit :=
  match reaped with
  | [] => ret ()
  | (pid, status) :: reaped => reap (Z.pos pid) status;; reap_all reaped
  end.

(** sigchld_handler.  [reaped] are the answers of the waitpid calls that
    returned a pid (> 0), in order, and [last] is the answer that ended the
    loop.  (The declarations of pid, status and jobid stand inside the
    [if (verbose)] block of the source; they are read as the declarations
    of the function.) *)
Definition sigchld_handler (reaped : list (positive * wstatus)) (last : wait_end) : M unit :=
  s ← get;
  when (verbose s) (printf ("sigchld_handler: entering " +:+ NL));;
  reap_all reaped;;
  match last with
  | NoChange => ret ()
  | WaitFailed e => modify (set_errno e)
  end;;
  s ← get;
  (if negb (ECHILD =? errno s) && negb (EINTR =? errno s)
   then unix_error "waitpid error"
   else ret ());;
  when (verbose s) (printf ("sigchld_handler: exiting " +:+ NL)).

(** sigint_handler - Catch SIGINT and send it along to the foreground job *)
Definition sigint_handler (sig : Z) (r : option Z) : M unit :=
  s ← get;
  when (verbose s) (printf ("sigint_handler: entering " +:+ NL));;
  let pid := fgpid (jobs s) in
  let jobid := pid2jid (jobs s) pid in
  Kill (- pid) sig r;;
  when (verbose s)
    (printf ("sigint_handler: Job [" +:+ dec jobid +:+ "] (" +:+ dec pid +:+ ") killed " +:+ NL));;
  when (verbose s) (printf ("sigint_handler: exiting " +:+ NL)).

(** sigtstp_handler - Catch SIGTSTP and suspend the foreground job *)
Definition sigtstp_handler (sig : Z) (r : option Z) : M unit :=
  s ← get;
  when (verbose s) (printf ("sigtstp_handler: entering " +:+ NL));;
  let pid := fgpid (jobs s) in
  let jobid := pid2jid (jobs s) pid in
  Kill (- pid) SIGTSTP r;;
  when (verbose s)
    (printf ("sigtstp_handler: Job [" +:+ dec jobid +:+ "] (" +:+ dec pid +:+ ") stopped " +:+ NL));;
  when (verbose s) (printf ("sigtstp_handler: exiting " +:+ NL)).

(** ** The signal mask *)

(** A sigset_t is the list of its members; of the process signal mask the
    state keeps whether SIGCHLD is in it.  With these arguments sigemptyset,
    sigaddset and sigprocmask do not fail.

    A SIGCHLD that arrives while it is blocked stays pending.  When
    sigprocmask unblocks it, it is delivered before the call returns: the
    handler runs inside the call.  [pending] is that delivery: [None] when no
    SIGCHLD is pending, else the answers of the waitpid calls of the
    handler. *)
Definition SIG_BLOCK : Z := 0.
Definition SIG_UNBLOCK : Z := 1.

Definition Sigemptyset : list Z := [].
Definition Sigaddset (set : list Z) (signum : Z) : list Z := signum :: set.
Definition Sigprocmask (how : Z) (set : list Z)
    (pending : option (list (positive * wstatus) * wait_end)) : M unit :=
  let member := bool_decide (SIGCHLD ∈ set) in
  if how =? SIG_BLOCK then
    modify (λ s, set_sigchld_blocked (sigchld_blocked s || member) s)
  else if how =? SIG_UNBLOCK then
    s ← get;
    modify (set_sigchld_blocked (sigchld_blocked s && negb member));;
    match pending with
    | Some (reaped, last) =>
        if sigchld_blocked s && member then sigchld_handler reaped last else ret ()
    | None => ret ()
    end
  else ret ().

(** ** parseline - Parse the command line and build the argv array

    The buffer is the text from [buf] on; strchr splits it at the first
    occurrence of the character, and [*delim = 0; buf = delim + 1] keeps the
    text before it as an argument and the text after it as the new buffer.
    The loop runs once per delimiter found, so the length of the buffer
    bounds it ([build_argv_fuel]).  MAXARGS is not checked by the code and
    lines with more than 128 arguments are not modelled. *)

Fixpoint replace_last (c : ascii) (str : string) : string :=
  match str with
  | EmptyString => EmptyString
  | String x EmptyString => String c EmptyString
  | String x rest => String x (replace_last c rest)
  end.

Fixpoint skip_spaces (buf : string) : string :=
  match buf with
  | String " "%char rest => skip_spaces rest
  | _ => buf
  end.

Fixpoint strchr (c : ascii) (buf : string) : option (string * string) :=
  match buf with
  | EmptyString => None
  | String x rest =>
      if bool_decide (x = c) then Some (EmptyString, rest)
      else prod_map (String x) id <$> strchr c rest
  end.

Definition delim (buf : string) : option (string * string) :=
  match buf with
  | String "'"%char rest => strchr "'"%char rest
  | _ => strchr " "%char buf
  end.

Fixpoint build_argv (fuel : nat) (buf : string) : list string :=
  match fuel with
  | O => []
  | S fuel =>
      match delim buf with
      | Some (arg, rest) => arg :: build_argv fuel (skip_spaces rest)
      | None => []
      end
  end.

(** Returns the background flag and argv (up to its NULL). *)
Definition parseline (cmdline : string) : bool * list string :=
  let buf := skip_spaces (replace_last " "%char cmdline) in
  let argv := build_argv (String.length buf) buf in
  match last argv with
  | None => (true, argv)
  | Some arg =>
      if starts_with "&"%char arg then (true, removelast argv) else (false, argv)
  end.

(** ** Dispatch

    [waitfg] blocks while the handlers run.  [do_bgfg] and [eval] call it
    as their last statement, so they are modelled up to that call and
    answer what is left of them: nothing, or [waitfg(pid)]. *)

Inductive rest := Returns | Waitfg (pid : Z).

(** What the operating system answers during one command. *)
Record os := Os {
  fork_ans : fork_answer;      (* fork() *)
  execve_err : option Z;       (* execve(): None, or Some errno when it fails *)
  kill_ans : option Z;         (* kill(): None, or Some errno when it fails *)
  chld_at_unblock : option (list (positive * wstatus) * wait_end)
                               (* the SIGCHLD pending when eval unblocks it *)
}.

(** do_bgfg - Execute the builtin bg and fg commands.
    [bgfg_resume] is its last statement, [if (is_BG) ... else ...], which
    both ways of naming the job reach with jid, jobid and pidt set. *)
Definition bgfg_resume (is_BG : bool) (jid : option nat) (jobid pidt : Z) (o : os) : M rest :=
  if is_BG then
    store_state jid BG;;
    Kill (- pidt) SIGCONT (kill_ans o);;
    job ← load jid;
    printf ("[" +:+ dec jobid +:+ "] (" +:+ dec pidt +:+ ") " +:+ job_cmdline job);;
    ret Returns
  else
    store_state jid FG;;
    Kill (- pidt) SIGCONT (kill_ans o);;
    ret (Waitfg pidt).

Definition do_bgfg (argv : list string) (o : os) : M rest :=
  let is_BG := bool_decide (argv !! 0%nat = Some "bg") in
  match argv !! 1%nat with
  | None =>
      (if is_BG
       then printf ("bg command requires PID or %jobid argument " +:+ NL)
       else printf ("fg command requires PID or %jobid argument " +:+ NL));;
      ret Returns
  | Some arg =>
      if (atoi (plus1 arg) =? 0) && starts_with "%"%char arg
         || (atoi arg =? 0) && negb (starts_with "%"%char arg)
      then
        (if is_BG
         then printf ("bg: argument must be a PID or %jobid " +:+ NL)
         else printf ("fg: argument must be a PID or %jobid " +:+ NL));;
        ret Returns
      else
        s ← get;
        if starts_with "%"%char arg then
          let jobid := atoi (plus1 arg) in
          match getjobjid (jobs s) jobid with
          | None => printf ("%" +:+ dec jobid +:+ ": No such job " +:+ NL);; ret Returns
          | Some i =>
              job ← load (Some i);
              let pidt := job_pid job in
              bgfg_resume is_BG (Some i) jobid pidt o
          end
        else
          let pidt := atoi arg in
          match getjobpid (jobs s) pidt with
          | None => printf ("(" +:+ dec pidt +:+ "): No such process " +:+ NL);; ret Returns
          | Some i =>
              job ← load (Some i);
              let jobid := job_pid job in
              bgfg_resume is_BG (Some i) jobid pidt o
          end
  end.

(** do_bgfg does not block SIGCHLD: between two of its statements the
    handler may run.  These are its statements after the validation, one at
    a time, with the point that control has reached: [bgfg_find] is the
    lookup, [bgfg_next] the statement at a point, [bgfg_from] the statements
    from a point on with nothing in between. *)
Inductive bgfg_point :=
| BgfgFound (is_BG by_jid : bool) (n : Z) (jid : nat)    (* jid = getjobjid / getjobpid (n) *)
| BgfgRead (is_BG : bool) (jid : nat) (jobid pidt : Z)   (* pidt / jobid = jid->pid *)
| BgfgStored (is_BG : bool) (jid : nat) (jobid pidt : Z) (* jid->state = BG / FG *)
| BgfgKilled (is_BG : bool) (jid : nat) (jobid pidt : Z) (* Kill(-pidt, SIGCONT) *).

Definition bgfg_find (argv : list string) (s : shell) : option bgfg_point :=
  let is_BG := bool_decide (argv !! 0%nat = Some "bg") in
  match argv !! 1%nat with
  | None => None
  | Some arg =>
      if (atoi (plus1 arg) =? 0) && starts_with "%"%char arg
         || (atoi arg =? 0) && negb (starts_with "%"%char arg)
      then None
      else if starts_with "%"%char arg
           then BgfgFound is_BG true (atoi (plus1 arg)) <$>
                  getjobjid (jobs s) (atoi (plus1 arg))
           else BgfgFound is_BG false (atoi arg) <$> getjobpid (jobs s) (atoi arg)
  end.

Definition bgfg_next (p : bgfg_point) (o : os) : M (bgfg_point + rest) :=
  match p with
  | BgfgFound is_BG by_jid n jid =>
      job ← load (Some jid);
      ret (inl (if by_jid then BgfgRead is_BG jid n (job_pid job)
                else BgfgRead is_BG jid (job_pid job) n))
  | BgfgRead is_BG jid jobid pidt =>
      store_state (Some jid) (if is_BG then BG else FG);;
      ret (inl (BgfgStored is_BG jid jobid pidt))
  | BgfgStored is_BG jid jobid pidt =>
      Kill (- pidt) SIGCONT (kill_ans o);;
      ret (inl (BgfgKilled is_BG jid jobid pidt))
  | BgfgKilled is_BG jid jobid pidt =>
      if is_BG then
        job ← load (Some jid);
        printf ("[" +:+ dec jobid +:+ "] (" +:+ dec pidt +:+ ") " +:+ job_cmdline job);;
        ret (inr Returns)
      else ret (inr (Waitfg pidt))
  end.

Fixpoint bgfg_from (n : nat) (p : bgfg_point) (o : os) : M rest :=
  match n with
  | O => ret Returns
  | S n =>
      r ← bgfg_next p o;
      match r with
      | inl p => bgfg_from n p o
      | inr r => ret r
      end
  end.

(** builtin_cmd - If the user has typed a built-in command then execute it
    immediately.  [None] is the answer 0; [Some r] is the answer 1, with
    what is left of do_bgfg to run before it. *)
Definition builtin_cmd (argv : list string) (o : os) : M (option rest) :=
  let arg0 := default "" (argv !! 0%nat) in
  if bool_decide (arg0 = "quit") then exit 0
  else if bool_decide (arg0 = "bg") || bool_decide (arg0 = "fg") then
    r ← do_bgfg argv o; ret (Some r)
  else if bool_decide (arg0 = "jobs") then
    listjobs;; ret (Some Returns)
  else ret None.

(** eval - Evaluate the command line that the user has just typed in *)
Definition eval (cmdline : string) (o : os) : M rest :=
  let '(bg, argv) := parseline cmdline in
  match argv with
  | [] => ret Returns
  | arg0 :: _ =>
      builtin ← builtin_cmd argv o;
      match builtin with
      | Some r => ret r
      | None =>
          let mask := Sigaddset Sigemptyset SIGCHLD in
          Sigprocmask SIG_BLOCK mask None;;
          pid ← Fork (fork_ans o);
          (if pid =? 0 then
             (* a child starts with no signal pending *)
             Sigprocmask SIG_UNBLOCK mask None;;
             (* setpgid(0, 0): the child leaves the shell's process group *)
             match execve_err o with
             | None => λ s, Replaced arg0 argv s
             | Some e =>
                 modify (set_errno e);;
                 printf (arg0 +:+ ": Command not found. " +:+ NL);;
                 exit 0
             end
           else ret ());;
          if negb bg then
            added ← addjob pid FG cmdline;
            if (added : bool) then
              Sigprocmask SIG_UNBLOCK mask (chld_at_unblock o);;
              ret (Waitfg pid)
            else ret Returns
          else
            added ← addjob pid BG cmdline;
            if (added : bool) then
              Sigprocmask SIG_UNBLOCK mask (chld_at_unblock o);;
              s ← get;
              printf ("[" +:+ dec (pid2jid (jobs s) pid) +:+ "] (" +:+ dec pid +:+ ") " +:+ cmdline);;
              ret Returns
            else ret Returns
      end
  end.

(** waitfg - Block until process pid is no longer the foreground process.
    [waitfg_enter] is [jid = getjobpid(jobs, pid)]; [waitfg_test] is the
    loop condition, evaluated as C does ([jid->state] only when fgpid(jobs)
    is not 0); [waitfg_leave] is what follows the loop.  Between two tests
    the process sleeps and the handlers may run. *)
Definition waitfg_enter (pid : Z) (s : shell) : option nat := getjobpid (jobs s) pid.

Definition waitfg_test (jid : option nat) : M bool :=
  s ← get;
  if fgpid (jobs s) =? 0 then ret false
  else job ← load jid; ret (negb (job_state job =? ST)).

Definition waitfg_leave (pid : Z) : M unit :=
  s ← get;
  when (verbose s)
    (printf ("waitfg: process (" +:+ dec pid +:+ ") is no longer the foreground process " +:+ NL)).

(** * Vocabulary of the properties *)

(** ** The first prompt and runs of table operations *)

(** main has run initjobs on the zero-initialised array, nextjid is 1 and
    SIGCHLD is not blocked; [v] is the -v flag. *)
Definition boot (v : bool) : shell :=
  Shell (initjobs (replicate (Z.to_nat MAXJOBS) (Job 0 0 0 ""))) 1 v 0 false "" [].

(** Sequences of job table operations. *)
Inductive table_op :=
| Insert (pid state : Z) (cmdline : string)
| Remove (pid : Z).

Definition table_step (op : table_op) : M bool :=
  match op with
  | Insert pid state cmdline => addjob pid state cmdline
  | Remove pid => deletejob pid
  end.

Fixpoint table_run (ops : list table_op) : M unit :=
  match ops with
  | [] => ret ()
  | op :: ops => table_step op;; table_run ops
  end.

(** The state a call ends in. *)
Definition after {A} (m : M A) (s : shell) : shell :=
  match m s with
  | Ret _ s' | Exit _ s' | Fault s' | Replaced _ _ s' => s'
  end.

(** ** Slots *)

Definition occupied (job : job_t) : Prop := job_pid job ≠ 0.

#[global] Instance occupied_dec job : Decision (occupied job).
Proof. unfold occupied. apply _. Defined.

(** Slot [i] is the lowest-indexed free slot. *)
Definition lowest_free (js : list job_t) (i : nat) : Prop :=
  (∃ job, js !! i = Some job ∧ job_pid job = 0) ∧
  ∀ j job, js !! j = Some job → (j < i)%nat → job_pid job ≠ 0.

(** Slot [i] is the lowest-indexed slot that holds [pid]. *)
Definition lowest_with_pid (js : list job_t) (pid : Z) (i : nat) : Prop :=
  (∃ job, js !! i = Some job ∧ job_pid job = pid) ∧
  ∀ j job, js !! j = Some job → (j < i)%nat → job_pid job ≠ pid.


(** Every free slot is as clearjob leaves it. *)
Definition free_cleared (js : list job_t) : Prop :=
  ∀ job, job ∈ js → job_pid job = 0 → job = Job 0 0 UNDEF "".

(** The counter after [nextjid++] and the wrap. *)
Definition bumped (n : Z) : Z := if decide (n + 1 > MAXJOBS) then 1 else n + 1.

Definition with_state (v : Z) (job : job_t) : job_t :=
  Job (job_pid job) (job_jid job) v (job_cmdline job).

Definition at_most_one_fg (js : list job_t) : Prop :=
  ∀ i j a b, js !! i = Some a → js !! j = Some b →
             occupied a → occupied b →
             job_state a = FG → job_state b = FG → i = j.


(** ** Calls *)

(** A launch, seen from the shell: fork answers the child's pid (execve and
    kill are not called on this path), and no SIGCHLD is pending when eval
    unblocks it. *)
Definition parent_of (child : positive) : os := Os (ForkParent child) None None None.

(** A launch, seen from the child, in which execve fails with errno e. *)
Definition failing_child (e : Z) : os := Os ForkChild (Some e) None None.

(** A builtin command: fork and execve are not called, kill succeeds. *)
Definition quiet : os := Os (ForkFailed 0) None None None.

Definition is_builtin (arg0 : string) : Prop :=
  arg0 = "quit" ∨ arg0 = "bg" ∨ arg0 = "fg" ∨ arg0 = "jobs".

(** The call returns having printed [msg] and done nothing else. *)
Definition complains (msg : string) (s : shell) (r : outcome rest) : Prop :=
  ∃ s', r = Ret Returns s' ∧
        stdout s' = stdout s +:+ msg ∧
        jobs s' = jobs s ∧ nextjid s' = nextjid s ∧ killed s' = killed s ∧
        sigchld_blocked s' = sigchld_blocked s.

(** The call leaves the job table as it is. *)
Definition keeps_table {A} (m : M A) : Prop :=
  ∀ s a s', m s = Ret a s' → jobs s' = jobs s.

(** ** The shell as it runs

    The main flow is at the prompt (between two calls of eval), between
    two statements of do_bgfg, about to call waitfg, or inside the loop of
    waitfg.  A step is a whole call of eval up to its waitfg, the lookup of
    do_bgfg or one of the statements that follow it, the first statement of
    waitfg, one test of its loop, or one run of a signal handler.  The
    SIGCHLD handler runs wherever the flow is while SIGCHLD is not blocked;
    where eval blocks it, the handler runs when eval unblocks it, inside the
    call ([chld_at_unblock]).  The other statements of eval and of the
    built-in commands do not write the job list and read it at most once
    (parseline, the validation of do_bgfg, listjobs, the printf of a
    launch): for the job list a handler that runs between them runs before
    or after them.  fork answers pids of live children, which are pids of no
    job in the table. *)

Inductive flow :=
| AtPrompt
| InBgfg (p : bgfg_point)
| CallWaitfg (pid : Z)
| InWaitfg (pid : Z) (jid : option nat).

Definition fresh (o : os) (s : shell) : Prop :=
  match fork_ans o with
  | ForkParent child => ∀ job, job ∈ jobs s → job_pid job ≠ Z.pos child
  | _ => True
  end.

Inductive step : flow * shell → flow * shell → Prop :=
| step_eval_returns cmdline o s s' :
    fresh o s →
    eval cmdline o s = Ret Returns s' →
    step (AtPrompt, s) (AtPrompt, s')
| step_eval_waits cmdline o s s' pid :
    fresh o s →
    eval cmdline o s = Ret (Waitfg pid) s' →
    step (AtPrompt, s) (CallWaitfg pid, s')
| step_bgfg_finds cmdline bg argv s p :
    parseline cmdline = (bg, argv) →
    argv !! 0%nat = Some "bg" ∨ argv !! 0%nat = Some "fg" →
    bgfg_find argv s = Some p →
    step (AtPrompt, s) (InBgfg p, s)
| step_bgfg_next p o s p' s' :
    bgfg_next p o s = Ret (inl p') s' →
    step (InBgfg p, s) (InBgfg p', s')
| step_bgfg_returns p o s s' :
    bgfg_next p o s = Ret (inr Returns) s' →
    step (InBgfg p, s) (AtPrompt, s')
| step_bgfg_waits p o s pid s' :
    bgfg_next p o s = Ret (inr (Waitfg pid)) s' →
    step (InBgfg p, s) (CallWaitfg pid, s')
| step_waitfg_enters pid s :
    step (CallWaitfg pid, s) (InWaitfg pid (waitfg_enter pid s), s)
| step_waitfg_sleeps pid jid s s' :
    waitfg_test jid s = Ret true s' →
    step (InWaitfg pid jid, s) (InWaitfg pid jid, s')
| step_waitfg_returns pid jid s s1 s' :
    waitfg_test jid s = Ret false s1 →
    waitfg_leave pid s1 = Ret () s' →
    step (InWaitfg pid jid, s) (AtPrompt, s')
| step_sigchld f reaped last s s' :
    sigchld_blocked s = false →
    sigchld_handler reaped last s = Ret () s' →
    step (f, s) (f, s')
| step_sigint f r s s' :
    sigint_handler SIGINT r s = Ret () s' →
    step (f, s) (f, s')
| step_sigtstp f r s s' :
    sigtstp_handler SIGTSTP r s = Ret () s' →
    step (f, s) (f, s').

(** The states of a shell started with or without -v. *)
Definition reachable (c : flow * shell) : Prop :=
  ∃ v, rtc step (AtPrompt, boot v) c.

(** ** The invariant of the running shell *)

(** Sixteen slots, free slots cleared, pids positive and pairwise distinct. *)
Definition table_ok (js : list job_t) : Prop :=
  length js = Z.to_nat MAXJOBS ∧
  free_cleared js ∧
  (∀ job, job ∈ js → 0 ≤ job_pid job) ∧
  (∀ i j a b, js !! i = Some a → js !! j = Some b →
              occupied a → job_pid a = job_pid b → i = j).

(** What holds of the job list of the running shell: sixteen slots, pids
    that are not negative and pairwise distinct among the jobs, and neither
    a job id nor a command line in a free slot.  (The state of a free slot
    need not be UNDEF: bg and fg write it, also after the handler has
    cleared the slot.) *)
Definition table_wf (js : list job_t) : Prop :=
  length js = Z.to_nat MAXJOBS ∧
  (∀ job, job ∈ js → 0 ≤ job_pid job) ∧
  (∀ job, job ∈ js → job_pid job = 0 → job_jid job = 0 ∧ job_cmdline job = "") ∧
  (∀ i j a b, js !! i = Some a → js !! j = Some b →
              occupied a → job_pid a = job_pid b → i = j).

(** A call that keeps the job list so. *)
Definition keeps_wf {A} (m : M A) : Prop :=
  ∀ s a s', m s = Ret a s' → table_wf (jobs s) → table_wf (jobs s').

(** ** States used as examples *)

(** Sixteen background jobs with pids 101..116: a full table. *)
Definition sixteen_jobs : list table_op :=
  (λ n, Insert (100 + Z.of_nat n) BG ("sleep 5 &" +:+ NL)) <$> seq 1 16.

Definition full_shell : shell := after (table_run sixteen_jobs) (boot false).


(** Fifteen background jobs, the second one removed, two more added. *)
Definition churn : list table_op :=
  ((λ n, Insert (100 + Z.of_nat n) BG ("sleep 5 &" +:+ NL)) <$> seq 1 15) ++
  [Remove 102;
   Insert 116 BG ("sleep 5 &" +:+ NL);
   Insert 117 BG ("sleep 5 &" +:+ NL)].

(** One stopped job: pid 4242, job_id 1. *)
Definition one_stopped : shell :=
  Shell (<[0%nat:=Job 4242 1 ST ("sleep 60" +:+ NL)]> (jobs (boot false))) 2 false 0 false "" [].

(** Background launches of [sleep 5], one per pid that fork answers. *)
Fixpoint launch_bg (pids : list positive) : M unit :=
  match pids with
  | [] => ret ()
  | pid :: pids => eval ("sleep 5 &" +:+ NL) (parent_of pid);; launch_bg pids
  end.

(** Sixteen background launches from the first prompt: the table is full. *)
Definition sixteen_pids : list positive := Pos.of_nat <$> seq 101 16.

Definition crowded : shell := after (launch_bg sixteen_pids) (boot false).

(** Two background jobs, pids 101 and 102, launched from the first prompt;
    errno is still 0. *)
Definition two_running : shell := after (launch_bg [101; 102]%positive) (boot false).

(** A background job (pid 200) and then a foreground job (pid 201): the
    shell is inside waitfg(201). *)
Definition launched_one : shell := after (eval ("sleep 9 &" +:+ NL) (parent_of 200)) (boot false).
Definition launched_two : shell := after (eval ("vi" +:+ NL) (parent_of 201)) launched_one.

(** A run in which the handler of SIGCHLD interrupts fg.  A first job
    (pid 99) is launched and ends, which leaves errno at ECHILD; three
    background jobs (pids 100, 101, 102; job ids 1, 2, 3) are launched; then
    [fg %2] is typed and, when getjobjid has answered the slot of job 2,
    the job ends and the handler deletes it. *)
Definition race_1 : shell := after (eval ("sleep 1 &" +:+ NL) (parent_of 99)) (boot false).
Definition race_2 : shell :=
  after (sigchld_handler [(99%positive, Exited 0)] (WaitFailed ECHILD)) race_1.
Definition race_3 : shell := after (eval ("x &" +:+ NL) (parent_of 100)) race_2.
Definition race_4 : shell := after (eval ("a &" +:+ NL) (parent_of 101)) race_3.
Definition race_5 : shell := after (eval ("y &" +:+ NL) (parent_of 102)) race_4.
Definition race_6 : shell :=
  after (sigchld_handler [(101%positive, Exited 0)] NoChange) race_5.
(** do_bgfg goes on in the cleared slot: [pidt = jid->pid] reads 0,
    [jid->state = FG] is written, and Kill(0, SIGCONT) signals the process
    group of the shell. *)
Definition race_7 : shell := after (store_state (Some 1%nat) FG) race_6.
Definition race_8 : shell := after (Kill 0 SIGCONT None) race_7.
(** waitfg(0) returns at once; so does the waitfg of [fg %3], since fgpid
    answers the pid 0 of the cleared slot: the shell is at the prompt with
    job 3 in state FG. *)
Definition race_9 : shell := after (eval ("fg %3" +:+ NL) quiet) race_8.
(** Then [fg %1]. *)
Definition two_fg : shell := after (eval ("fg %1" +:+ NL) quiet) race_9.

(** Or, from the same prompt: a background launch, which takes the cleared
    slot, and a foreground launch whose child (pid 104) has exited before
    eval unblocks SIGCHLD. *)
Definition gone_at_unblock : os :=
  Os (ForkParent 104) None None (Some ([(104%positive, Exited 0)], NoChange)).
Definition crash_1 : shell := after (eval ("b &" +:+ NL) (parent_of 103)) race_9.
Definition crash_2 : shell := after (eval ("c" +:+ NL) gone_at_unblock) crash_1.

(** ** Vocabulary of the further properties *)

(** The line of the jobs command for a job in one of the three states. *)
Definition job_line (job : job_t) : string :=
  "[" +:+ dec (job_jid job) +:+ "] (" +:+ dec (job_pid job) +:+ ") " +:+
  (if job_state job =? BG then "Running "
   else if job_state job =? FG then "Foreground "
   else "Stopped ") +:+
  job_cmdline job.

Definition tracked_state (job : job_t) : Prop :=
  job_state job = BG ∨ job_state job = FG ∨ job_state job = ST.







Fixpoint spaces (n : nat) : string :=
  match n with
  | O => ""
  | S n => String " "%char (spaces n)
  end.

(** The argument of bg or fg names the job in slot [i]: it is % and its job
    id, or its pid, as atoi reads them, and the scan by that number answers
    slot [i]. *)
Definition names (js : list job_t) (arg : string) (i : nat) (job : job_t) : Prop :=
  js !! i = Some job ∧
  ((∃ text, arg = String "%"%char text ∧ atoi text = job_jid job ∧
            getjobjid js (job_jid job) = Some i) ∨
   (starts_with "%"%char arg = false ∧ atoi arg = job_pid job ∧
    getjobpid js (job_pid job) = Some i)).

(** Text that does not go on a number: it is empty or its first character
    is not a digit. *)
Definition no_digit_first (text : string) : Prop :=
  match text with
  | EmptyString => True
  | String c _ => digit c = None
  end.



(** A call that leaves the signal mask as it is. *)
Definition keeps_mask {A} (m : M A) : Prop :=
  ∀ s a s', m s = Ret a s' → sigchld_blocked s' = sigchld_blocked s.

(** The full table after one more launch, which was refused. *)
Definition refused : shell := after (eval ("/bin/ls" +:+ NL) (parent_of 200)) crowded.

(** * Properties *)

(** ** The bound of parseline's loop *)

Lemma strchr_shorter c buf arg rest :
  strchr c buf = Some (arg, rest) → (String.length rest < String.length buf)%nat.
Proof.
  revert arg. induction buf as [|x buf IH]; intros arg; simpl; [done|].
  case_bool_decide; [intros [= _ <-]; lia|].
  destruct (strchr c buf) as [[a r]|]; [|done].
  intros [= _ <-]. specialize (IH a eq_refl). lia.
Qed.

Lemma delim_shorter buf arg rest :
  delim buf = Some (arg, rest) → (String.length rest < String.length buf)%nat.
Proof.
  unfold delim. destruct buf as [|x buf]; [done|].
  destruct (decide (x = "'"%char)) as [->|Hx].
  - intros H%strchr_shorter. simpl. lia.
  - intros H. apply (strchr_shorter " "%char (String x buf) arg).
    rewrite <- H. by destruct x as [[] [] [] [] [] [] [] []].
Qed.

Lemma skip_spaces_shorter buf : (String.length (skip_spaces buf) ≤ String.length buf)%nat.
Proof.
  induction buf as [|x buf IH]; [done|].
  destruct (decide (x = " "%char)) as [->|Hx]; [simpl; lia|].
  replace (skip_spaces (String x buf)) with (String x buf); [done|].
  by destruct x as [[] [] [] [] [] [] [] []].
Qed.

Lemma build_argv_enough n m buf :
  (String.length buf ≤ n)%nat → (String.length buf ≤ m)%nat →
  build_argv n buf = build_argv m buf.
Proof.
  revert m buf. induction n as [|n IH]; intros [|m] buf Hn Hm; [done|..].
  - destruct buf; [done|simpl in Hn; lia].
  - destruct buf; [done|simpl in Hm; lia].
  - simpl. destruct (delim buf) as [[arg rest]|] eqn:Hd; [|done].
    apply delim_shorter in Hd. pose proof (skip_spaces_shorter rest).
    f_equal. apply IH; lia.
Qed.

(** The fuel parseline gives the loop is enough: more does not change argv. *)
Lemma build_argv_fuel n buf :
  (String.length buf ≤ n)%nat → build_argv n buf = build_argv (String.length buf) buf.
Proof. intros H. by apply build_argv_enough. Qed.

(** ** The scans *)

Lemma first_slot_Some f v js i job :
  first_slot f v js = Some (i, job) ↔
  js !! i = Some job ∧ f job = v ∧
  ∀ j y, js !! j = Some y → (j < i)%nat → f y ≠ v.
Proof. unfold first_slot. by rewrite list_find_Some. Qed.

Lemma first_slot_None f v js :
  first_slot f v js = None ↔ ∀ job, job ∈ js → f job ≠ v.
Proof. unfold first_slot. rewrite list_find_None, Forall_forall. done. Qed.

Lemma first_slot_lowest_free js i :
  lowest_free js i ↔ ∃ job, first_slot job_pid 0 js = Some (i, job).
Proof.
  unfold lowest_free. split.
  - intros [(job & Hi & Hp) Hlow]. exists job. apply first_slot_Some. eauto.
  - intros (job & H). apply first_slot_Some in H as (Hi & Hp & Hlow). eauto.
Qed.

Lemma first_slot_lowest_with_pid js pid i :
  lowest_with_pid js pid i ↔ ∃ job, first_slot job_pid pid js = Some (i, job).
Proof.
  unfold lowest_with_pid. split.
  - intros [(job & Hi & Hp) Hlow]. exists job. apply first_slot_Some. eauto.
  - intros (job & H). apply first_slot_Some in H as (Hi & Hp & Hlow). eauto.
Qed.

(** The scans, when they find a slot. *)
Lemma getjobpid_Some js pid i :
  getjobpid js pid = Some i →
  ∃ job, js !! i = Some job ∧ job_pid job = pid ∧ 0 < pid.
Proof.
  unfold getjobpid. destruct (Z.ltb_spec pid 1); [done|].
  destruct (first_slot job_pid pid js) as [[k job]|] eqn:Hf; [|done].
  intros [= <-]. apply first_slot_Some in Hf as (Hk & Hp & _).
  exists job. repeat split; [done..|lia].
Qed.

Lemma getjobjid_Some js jid i :
  getjobjid js jid = Some i →
  ∃ job, js !! i = Some job ∧ job_jid job = jid ∧ 0 < jid.
Proof.
  unfold getjobjid. destruct (Z.ltb_spec jid 1); [done|].
  destruct (first_slot job_jid jid js) as [[k job]|] eqn:Hf; [|done].
  intros [= <-]. apply first_slot_Some in Hf as (Hk & Hp & _).
  exists job. repeat split; [done..|lia].
Qed.

(** ** maxjid *)

Lemma foldr_max_shift (a x : Z) (l : list Z) :
  foldr Z.max (Z.max a x) l = Z.max x (foldr Z.max a l).
Proof. induction l as [|y l IH]; simpl; [lia | rewrite IH; lia]. Qed.

Lemma maxjid_foldr js : maxjid js = foldr Z.max 0 (job_jid <$> js).
Proof.
  unfold maxjid. generalize 0. induction js as [|job js IH]; intros a; simpl; [done|].
  rewrite IH. replace (if job_jid job >? a then job_jid job else a) with (Z.max a (job_jid job)).
  - apply foldr_max_shift.
  - destruct (Z.gtb_spec (job_jid job) a); lia.
Qed.

Lemma foldr_max_nonneg (l : list Z) : 0 ≤ foldr Z.max 0 l.
Proof. induction l; simpl; lia. Qed.


Lemma maxjid_all_free js : (∀ job, job ∈ js → job_jid job = 0) → maxjid js = 0.
Proof.
  rewrite maxjid_foldr. induction js as [|job js IH]; intros H; [done|].
  rewrite fmap_cons. simpl.
  rewrite IH by (intros y Hy; apply H; by right). rewrite (H job) by by left. done.
Qed.

Lemma free_cleared_insert js i job :
  free_cleared js → (job_pid job = 0 → job = Job 0 0 UNDEF "") →
  free_cleared (<[i:=job]> js).
Proof.
  intros Hc Hj y Hy Hp. apply list_elem_of_lookup in Hy as [k Hk].
  rewrite list_lookup_insert in Hk. case_decide; simplify_eq; [by apply Hj|].
  apply Hc; [|done]. apply list_elem_of_lookup; eauto.
Qed.

Lemma boot_free_cleared v : free_cleared (jobs (boot v)).
Proof.
  intros job Hin _. unfold boot, jobs, initjobs in Hin.
  apply list_elem_of_fmap in Hin as (y & -> & _). done.
Qed.

(** ** Text *)

Lemma append_empty_r (a : string) : a +:+ "" = a.
Proof. induction a as [|c a IH]; [done|]. unfold String.app in *. simpl. by rewrite IH. Qed.

(** ** addjob and deletejob *)

Lemma addjob_rejects s pid state cmdline :
  pid ≤ 0 → addjob pid state cmdline s = Ret false s.
Proof. intros H. unfold addjob. by rewrite (proj2 (Z.ltb_lt pid 1)) by lia. Qed.

Lemma addjob_full s pid state cmdline :
  0 < pid → (∀ job, job ∈ jobs s → occupied job) →
  addjob pid state cmdline s = Ret false (put ("Tried to create too many jobs" +:+ NL) s).
Proof.
  intros Hp Hfull. unfold addjob. rewrite (proj2 (Z.ltb_ge pid 1)) by lia.
  by rewrite (proj2 (first_slot_None job_pid 0 (jobs s))).
Qed.

Lemma addjob_inserts s pid state cmdline i :
  0 < pid → lowest_free (jobs s) i →
  ∃ s', addjob pid state cmdline s = Ret true s' ∧
        jobs s' = <[i:=Job pid (nextjid s) state cmdline]> (jobs s) ∧
        nextjid s' = bumped (nextjid s) ∧
        stdout s' = stdout s +:+
          (if verbose s
           then "Added job [" +:+ dec (nextjid s) +:+ "] " +:+ dec pid +:+ " " +:+ cmdline +:+ NL
           else "") ∧
        verbose s' = verbose s ∧ errno s' = errno s ∧
        sigchld_blocked s' = sigchld_blocked s ∧ killed s' = killed s.
Proof.
  intros Hp [job Hfree]%first_slot_lowest_free. unfold addjob.
  rewrite (proj2 (Z.ltb_ge pid 1)) by lia. rewrite Hfree. eexists. split; [done|].
  destruct s as [js n v e b out k]. unfold bumped. simpl.
  destruct (Z.gtb_spec (n + 1) MAXJOBS), (decide (n + 1 > MAXJOBS)); try lia;
    destruct v; simpl; repeat split; try done;
    by rewrite append_empty_r.
Qed.



Lemma deletejob_clears s pid i :
  0 < pid → lowest_with_pid (jobs s) pid i →
  deletejob pid s =
    Ret true (set_nextjid (maxjid (<[i:=Job 0 0 UNDEF ""]> (jobs s)) + 1)
                (set_jobs (<[i:=Job 0 0 UNDEF ""]> (jobs s)) s)).
Proof.
  intros Hp [job Hfound]%first_slot_lowest_with_pid. unfold deletejob.
  rewrite (proj2 (Z.ltb_ge pid 1)) by lia. by rewrite Hfound.
Qed.

(** C6.  addjob returns false, with the table and the counter as they were,
    when pid <= 0 and, after logging "Tried to create too many jobs", when
    every slot is occupied; otherwise it returns true with pid, state and
    command line stored in the lowest free slot, whose job_id is the counter,
    and with the counter incremented and set to 1 once it exceeds 16. *)
Theorem addjob_spec (s : shell) (pid state : Z) (cmdline : string) :
  (pid ≤ 0 → addjob pid state cmdline s = Ret false s) ∧
  (0 < pid → (∀ job, job ∈ jobs s → occupied job) →
   ∃ s', addjob pid state cmdline s = Ret false s' ∧
         jobs s' = jobs s ∧ nextjid s' = nextjid s ∧
         stdout s' = stdout s +:+ "Tried to create too many jobs" +:+ NL) ∧
  (∀ i, 0 < pid → lowest_free (jobs s) i →
   ∃ s', addjob pid state cmdline s = Ret true s' ∧
         jobs s' = <[i:=Job pid (nextjid s) state cmdline]> (jobs s) ∧
         nextjid s' = (if decide (nextjid s + 1 > 16) then 1 else nextjid s + 1)).
Proof.
  split; [apply addjob_rejects|]. split.
  - intros Hp Hfull. eexists. split; [by apply addjob_full|done].
  - intros i Hp Hfree.
    destruct (addjob_inserts s pid state cmdline i Hp Hfree) as (s' & Hs' & Hj & Hn & _).
    eauto.
Qed.

Lemma full_shell_full : ∀ job, job ∈ jobs full_shell → occupied job.
Proof. apply Forall_forall. vm_compute. repeat constructor; discriminate. Qed.

Lemma addjob_spec_witness :
  addjob 0 BG "ls" (boot false) = Ret false (boot false) ∧
  (∃ s', addjob 7 BG "ls" full_shell = Ret false s' ∧
         jobs s' = jobs full_shell ∧ nextjid s' = nextjid full_shell ∧
         stdout s' = stdout full_shell +:+ "Tried to create too many jobs" +:+ NL) ∧
  (∃ s', addjob 7 BG "ls" (boot false) = Ret true s' ∧
         jobs s' = <[0%nat:=Job 7 1 BG "ls"]> (jobs (boot false)) ∧
         nextjid s' = 2).
Proof.
  destruct (addjob_spec (boot false) 0 BG "ls") as (H1 & _).
  destruct (addjob_spec full_shell 7 BG "ls") as (_ & H2 & _).
  destruct (addjob_spec (boot false) 7 BG "ls") as (_ & _ & H3).
  split; [apply H1; lia|]. split; [apply H2; [lia | apply full_shell_full]|].
  apply (H3 0%nat); [lia|]. apply first_slot_lowest_free. eexists. vm_compute. reflexivity.
Defined.






(** ** Uniqueness of job ids *)

(** C1 (the code departs from it).  After fifteen addjob calls, one
    deletejob of a job that is not the newest, and two more addjob calls, the
    occupied slots 0 and 15 both carry job_id 1: the counter was set to 1 when
    it passed 16 although job 1 was still there.  And in the full table that
    sixteen addjob calls build, the counter is 1, the job_id of slot 0. *)
Theorem jid_collision_after_wrap :
  (∃ s, table_run churn (boot false) = Ret () s ∧
        jobs s !! 0%nat = Some (Job 101 1 BG ("sleep 5 &" +:+ NL)) ∧
        jobs s !! 15%nat = Some (Job 117 1 BG ("sleep 5 &" +:+ NL))) ∧
  (table_run sixteen_jobs (boot false) = Ret () full_shell ∧
   nextjid full_shell = 1 ∧
   jobs full_shell !! 0%nat = Some (Job 101 1 BG ("sleep 5 &" +:+ NL))).
Proof.
  split.
  - eexists. split; [vm_compute; reflexivity|]. split; reflexivity.
  - split; [vm_compute; reflexivity|]. split; reflexivity.
Qed.

(** What does hold: job ids stay positive, below the counter and pairwise
    distinct as long as addjob is not called with the counter at 16 or more
    (the call that sets it to 1), and deletejob always keeps them so. *)
Lemma jid_le_maxjid js job : job ∈ js → job_jid job ≤ maxjid js.
Proof.
  rewrite maxjid_foldr. induction js as [|y js IH]; [by intros ?%elem_of_nil|].
  rewrite fmap_cons. simpl. intros [->|Hin]%elem_of_cons; [lia|].
  specialize (IH Hin). lia.
Qed.




(** ** At most one foreground job *)

(** The job list itself does not keep the bound: two addjob calls with
    state FG on the empty table fill slots 0 and 1 with foreground jobs. *)
Lemma two_foreground_inserts :
  ∃ s, table_run [Insert 101 FG ("cat" +:+ NL); Insert 102 FG ("vi" +:+ NL)] (boot false)
       = Ret () s ∧
       ¬ at_most_one_fg (jobs s).
Proof.
  eexists. split; [vm_compute; reflexivity|]. intros H.
  specialize (H 0%nat 1%nat _ _ eq_refl eq_refl). simpl in H.
  assert (0%nat = 1%nat) by (apply H; done). discriminate.
Qed.

(** ** Dispatch: stepping through the calls *)

Lemma bind_unfold {A B} (m : M A) (k : A → M B) (s : shell) :
  (m ≫= k) s = match m s with
               | Ret a s' => k a s'
               | Exit c s' => Exit c s'
               | Fault s' => Fault s'
               | Replaced p a s' => Replaced p a s'
               end.
Proof. reflexivity. Qed.

(** Runs the calls of the state monad on a state given by its fields. *)
Ltac mrun :=
  cbv [mbind M_bind bind mret M_ret ret get modify when printf exit unix_error app_error
       jobs nextjid verbose errno sigchld_blocked stdout killed
       set_jobs set_nextjid set_errno set_sigchld_blocked put record_kill].

Lemma bind_Ret {A B} (m : M A) (k : A → M B) (s s' : shell) (b : B) :
  (m ≫= k) s = Ret b s' ↔ ∃ a s1, m s = Ret a s1 ∧ k a s1 = Ret b s'.
Proof.
  rewrite bind_unfold. split.
  - destruct (m s) as [a s1| | |]; [eauto | done..].
  - by intros (a & s1 & -> & ?).
Qed.

Lemma builtin_cmd_other (arg0 : string) (args : list string) (o : os) (s : shell) :
  ¬ is_builtin arg0 → builtin_cmd (arg0 :: args) o s = Ret None s.
Proof.
  intros Hn. unfold builtin_cmd, is_builtin in *. simpl.
  repeat (case_bool_decide; [tauto|]). done.
Qed.

(** ** The SIGCHLD bracket of eval *)

(** C2 (the code departs from it).  After sixteen background launches the
    table is full and SIGCHLD is not blocked.  eval of [/bin/ls] then forks
    (the child has pid 200), addjob fails after reporting the capacity error,
    and eval returns with SIGCHLD blocked: the unblocking stands inside
    [if (addjob(...))]. *)
Theorem eval_full_table_leaves_sigchld_blocked :
  launch_bg sixteen_pids (boot false) = Ret () crowded ∧
  sigchld_blocked crowded = false ∧
  ∃ s', eval ("/bin/ls" +:+ NL) (parent_of 200) crowded = Ret Returns s' ∧
        jobs s' = jobs crowded ∧
        stdout s' = stdout crowded +:+ "Tried to create too many jobs" +:+ NL ∧
        sigchld_blocked s' = true.
Proof.
  split; [vm_compute; reflexivity|]. split; [reflexivity|].
  eexists. split; [vm_compute; reflexivity|]. done.
Qed.

(** The same for every full table and every command that is not built in. *)
Lemma eval_parent_full s cmdline bg arg0 args child :
  parseline cmdline = (bg, arg0 :: args) → ¬ is_builtin arg0 →
  (∀ job, job ∈ jobs s → occupied job) →
  ∃ s', eval cmdline (parent_of child) s = Ret Returns s' ∧
        jobs s' = jobs s ∧ sigchld_blocked s' = true.
Proof.
  intros Hparse Hn Hfull. unfold eval. rewrite Hparse.
  rewrite bind_unfold, builtin_cmd_other by done. cbv zeta.
  rewrite bind_unfold. cbn [Sigprocmask Z.eqb SIG_BLOCK modify].
  rewrite bind_unfold. cbn [parent_of fork_ans Fork ret Z.eqb].
  rewrite bind_unfold. cbn [ret].
  set (s1 := set_sigchld_blocked _ s).
  assert (∀ st, addjob (Z.pos child) st cmdline s1
                = Ret false (put ("Tried to create too many jobs" +:+ NL) s1)) as Hadd
    by (intros st; by apply addjob_full).
  destruct bg; cbn [negb]; rewrite bind_unfold, Hadd; eexists; (split; [done|]);
    split; [done| |done|]; subst s1; cbn; apply orb_true_r.
Qed.

(** Where addjob succeeds, the bracket is closed. *)
Lemma eval_parent_free s cmdline bg arg0 args child i :
  parseline cmdline = (bg, arg0 :: args) → ¬ is_builtin arg0 →
  lowest_free (jobs s) i →
  ∃ r s', eval cmdline (parent_of child) s = Ret r s' ∧
          jobs s' !! i = Some (Job (Z.pos child) (nextjid s) (if bg then BG else FG) cmdline) ∧
          sigchld_blocked s' = false.
Proof.
  intros Hparse Hn Hfree. unfold eval. rewrite Hparse.
  rewrite bind_unfold, builtin_cmd_other by done. cbv zeta.
  rewrite bind_unfold. cbn [Sigprocmask Z.eqb SIG_BLOCK modify].
  rewrite bind_unfold. cbn [parent_of fork_ans Fork ret Z.eqb].
  rewrite bind_unfold. cbn [ret].
  set (s1 := set_sigchld_blocked _ s).
  assert (lowest_free (jobs s1) i) as Hfree1 by done.
  pose proof Hfree as [(old & Hold%lookup_lt_Some & _) _].
  destruct bg; cbn [negb]; rewrite bind_unfold.
  - destruct (addjob_inserts s1 (Z.pos child) BG cmdline i) as (s2 & -> & Hj & _);
      [done..|].
    eexists _, _. split; [reflexivity|]. cbn. rewrite Hj.
    split; [by apply list_lookup_insert_eq | apply andb_false_r].
  - destruct (addjob_inserts s1 (Z.pos child) FG cmdline i) as (s2 & -> & Hj & _);
      [done..|].
    eexists _, _. split; [reflexivity|]. cbn. rewrite Hj.
    split; [by apply list_lookup_insert_eq | apply andb_false_r].
Qed.

(** ** The child whose execve fails *)

(** Against C3 as stated: the child of [/bin/nothere], whose execve fails
    with ENOENT (2), does not exit with a non-zero status. *)
Lemma child_exits_with_status_zero :
  ¬ ∃ code s', eval ("/bin/nothere" +:+ NL) (failing_child 2) (boot false) = Exit code s' ∧
               code ≠ 0.
Proof. intros (code & s' & H & Hne). vm_compute in H. by injection H as <- _. Qed.

(** C3 (amended).  In the child, when execve fails, eval prints
    [<argv[0]>: Command not found.] and the process exits at once, with
    status 0; the child's copy of the job table is not touched and nothing
    else is printed. *)
Theorem eval_child_command_not_found
    (s : shell) (cmdline : string) (o : os) (bg : bool) (arg0 : string)
    (args : list string) (e : Z) :
  parseline cmdline = (bg, arg0 :: args) →
  ¬ is_builtin arg0 →
  fork_ans o = ForkChild →
  execve_err o = Some e →
  ∃ s', eval cmdline o s = Exit 0 s' ∧
        stdout s' = stdout s +:+ arg0 +:+ ": Command not found. " +:+ NL ∧
        jobs s' = jobs s ∧ nextjid s' = nextjid s ∧ killed s' = killed s.
Proof.
  intros Hparse Hn Hfork Hexec. unfold eval. rewrite Hparse.
  rewrite bind_unfold, builtin_cmd_other by done.
  rewrite Hfork, Hexec. eexists. split; [reflexivity|]. done.
Qed.

Lemma eval_child_command_not_found_witness :
  ∃ s', eval ("/bin/nothere -x" +:+ NL) (failing_child 2) (boot false) = Exit 0 s' ∧
        stdout s' = "/bin/nothere: Command not found. " +:+ NL ∧
        jobs s' = jobs (boot false).
Proof.
  destruct (eval_child_command_not_found (boot false) ("/bin/nothere -x" +:+ NL)
              (failing_child 2) false "/bin/nothere" ["-x"] 2) as (s' & H & Hout & Hj & _).
  - vm_compute. reflexivity.
  - unfold is_builtin. intros [H|[H|[H|H]]]; discriminate.
  - reflexivity.
  - reflexivity.
  - exists s'. rewrite Hout, Hj. done.
Defined.

(** ** bg and fg *)

(** C4 (the code departs from it).  [bg 4242] on the stopped job with pid
    4242 and job_id 1 sets the job to BG and sends SIGCONT to -4242, but the
    line it prints starts with [4242], the pid, where the job_id 1 belongs:
    on this path the code has [jobid = jid->pid]. *)
Theorem bg_by_pid_prints_pid_as_jid :
  pid2jid (jobs one_stopped) 4242 = 1 ∧
  ∃ s', do_bgfg ["bg"; "4242"] quiet one_stopped = Ret Returns s' ∧
        jobs s' !! 0%nat = Some (Job 4242 1 BG ("sleep 60" +:+ NL)) ∧
        killed s' = [(-4242, SIGCONT)] ∧
        stdout s' = "[4242] (4242) sleep 60" +:+ NL.
Proof. split; [reflexivity|]. eexists. split; [vm_compute; reflexivity|]. done. Qed.

(** Named by job_id, the same job gets the line [job_id] (pid) command line. *)
Lemma bg_by_jid_prints_jid :
  ∃ s', do_bgfg ["bg"; "%1"] quiet one_stopped = Ret Returns s' ∧
        jobs s' !! 0%nat = Some (Job 4242 1 BG ("sleep 60" +:+ NL)) ∧
        killed s' = [(-4242, SIGCONT)] ∧
        stdout s' = "[1] (4242) sleep 60" +:+ NL.
Proof. eexists. split; [vm_compute; reflexivity|]. done. Qed.

(** The last statement of do_bgfg, for bg. *)
Lemma bgfg_resume_bg s i job jobid pidt :
  jobs s !! i = Some job →
  ∃ s', bgfg_resume true (Some i) jobid pidt quiet s = Ret Returns s' ∧
        jobs s' = <[i:=with_state BG job]> (jobs s) ∧
        killed s' = killed s ++ [(- pidt, SIGCONT)] ∧
        stdout s' = stdout s +:+ "[" +:+ dec jobid +:+ "] (" +:+ dec pidt +:+ ") " +:+
                    job_cmdline job.
Proof.
  intros Hi. pose proof (lookup_lt_Some _ _ _ Hi) as Hlt.
  destruct s as [js n v e b out k]. cbn [jobs stdout killed] in *.
  unfold bgfg_resume.
  cbv [mbind M_bind bind mret M_ret ret get modify printf store_state load Kill quiet
       kill_ans option_bind jobs nextjid verbose errno sigchld_blocked stdout killed
       set_jobs set_nextjid set_errno set_sigchld_blocked put record_kill].
  rewrite Hi. cbv beta iota. rewrite list_lookup_insert_eq by done.
  eexists. split; [reflexivity|]. done.
Qed.

(** bg by pid, in general: both fields of the line are the pid. *)
Lemma bg_by_pid_line s arg i job :
  starts_with "%"%char arg = false → atoi arg = job_pid job →
  getjobpid (jobs s) (job_pid job) = Some i → jobs s !! i = Some job →
  ∃ s', do_bgfg ["bg"; arg] quiet s = Ret Returns s' ∧
        jobs s' = <[i:=with_state BG job]> (jobs s) ∧
        killed s' = killed s ++ [(- job_pid job, SIGCONT)] ∧
        stdout s' = stdout s +:+ "[" +:+ dec (job_pid job) +:+ "] (" +:+
                    dec (job_pid job) +:+ ") " +:+ job_cmdline job.
Proof.
  intros Hs Hn Hfound Hi. unfold do_bgfg. cbn [lookup list_lookup]. rewrite Hs, Hn.
  apply getjobpid_Some in Hfound as Hpos. destruct Hpos as (_ & _ & _ & Hpos).
  rewrite (proj2 (Z.eqb_neq (job_pid job) 0)) by lia.
  rewrite andb_false_r. cbn [andb orb negb]. cbv zeta.
  rewrite bind_unfold. cbn [get]. rewrite Hfound.
  rewrite bind_unfold. unfold load at 1. cbn [mbind option_bind]. rewrite Hi.
  rewrite bool_decide_eq_true_2 by done. by apply bgfg_resume_bg.
Qed.

(** bg by job id, in general: the line is the one the format asks for. *)
Lemma bg_by_jid_line s arg i job :
  atoi arg = job_jid job → job_jid job ≠ 0 →
  getjobjid (jobs s) (job_jid job) = Some i → jobs s !! i = Some job →
  ∃ s', do_bgfg ["bg"; String "%"%char arg] quiet s = Ret Returns s' ∧
        jobs s' = <[i:=with_state BG job]> (jobs s) ∧
        killed s' = killed s ++ [(- job_pid job, SIGCONT)] ∧
        stdout s' = stdout s +:+ "[" +:+ dec (job_jid job) +:+ "] (" +:+
                    dec (job_pid job) +:+ ") " +:+ job_cmdline job.
Proof.
  intros Hn Hne Hfound Hi. unfold do_bgfg. cbn [lookup list_lookup starts_with plus1].
  rewrite bool_decide_eq_true_2 by done. rewrite Hn.
  rewrite (proj2 (Z.eqb_neq (job_jid job) 0)) by done.
  rewrite andb_false_r. cbn [andb orb negb]. cbv zeta.
  rewrite bind_unfold. cbn [get]. rewrite Hfound.
  rewrite bind_unfold. unfold load at 1. cbn [mbind option_bind]. rewrite Hi.
  rewrite bool_decide_eq_true_2 by done. by apply bgfg_resume_bg.
Qed.

(** ** The end of the reap loop *)

(** C5 (the code departs from it).  Job 102 exits while job 101 runs on:
    waitpid returns 102, then 0 -- no error, errno stays 0 -- and the handler
    takes errno for an error other than ECHILD and EINTR: it prints
    [waitpid error: Success] and the shell exits with status 1, job 101
    still in its table. *)
Theorem sigchld_handler_fatal_without_error :
  errno two_running = 0 ∧
  ∃ s', sigchld_handler [(102%positive, Exited 0)] NoChange two_running = Exit 1 s' ∧
        stdout s' = stdout two_running +:+ "waitpid error: Success" +:+ NL ∧
        jobs s' !! 0%nat = Some (Job 101 1 BG ("sleep 5 &" +:+ NL)).
Proof.
  split; [reflexivity|]. eexists. split; [vm_compute; reflexivity|].
  split; reflexivity.
Qed.

(** What holds of the end of the loop: the handler exits exactly when errno,
    as the last waitpid left it, is neither ECHILD nor EINTR. *)
Lemma sigchld_handler_end (last : wait_end) (s : shell) :
  let e := match last with NoChange => errno s | WaitFailed e => e end in
  verbose s = false →
  sigchld_handler [] last s =
    if decide (e = ECHILD ∨ e = EINTR)
    then Ret () (set_errno e s)
    else Exit 1 (put ("waitpid error: " +:+ strerror e +:+ NL) (set_errno e s)).
Proof.
  intros e Hv. unfold sigchld_handler. destruct s as [js n v er b out k].
  cbn [verbose errno] in *. subst v e. destruct last as [|e']; cbn [reap_all]; mrun.
  - destruct (Z.eqb_spec ECHILD er), (Z.eqb_spec EINTR er); case_decide;
      cbn [negb andb]; try done; exfalso; unfold ECHILD, EINTR in *; lia.
  - destruct (Z.eqb_spec ECHILD e'), (Z.eqb_spec EINTR e'); case_decide;
      cbn [negb andb]; try done; exfalso; unfold ECHILD, EINTR in *; lia.
Qed.

(** ** bg and fg that fail *)

Lemma printf_complains (msg : string) (s : shell) :
  complains msg s ((printf msg;; ret Returns) s).
Proof. eexists. split; [reflexivity|]. done. Qed.

Lemma getjobjid_absent js n :
  free_cleared js → n ≠ 0 →
  (∀ job, job ∈ js → occupied job → job_jid job ≠ n) →
  getjobjid js n = None.
Proof.
  intros Hc Hn Habs. unfold getjobjid. destruct (n <? 1); [done|].
  rewrite (proj2 (first_slot_None job_jid n js)); [done|].
  intros job Hin. destruct (decide (occupied job)) as [Ho|Hf]; [by apply Habs|].
  rewrite (Hc job Hin); [simpl; lia|]. unfold occupied in Hf. lia.
Qed.

Lemma getjobpid_absent js n :
  n ≠ 0 → (∀ job, job ∈ js → occupied job → job_pid job ≠ n) →
  getjobpid js n = None.
Proof.
  intros Hn Habs. unfold getjobpid. destruct (n <? 1); [done|].
  rewrite (proj2 (first_slot_None job_pid n js)); [done|].
  intros job Hin Heq. apply (Habs job Hin); [unfold occupied; lia | done].
Qed.

(** The error paths of do_bgfg.  It prints its complaint and returns, with
    the job table, the counter and the list of signals sent as they were,
    when argv[1] is
    missing, when atoi makes 0 of it (of what follows the %, if it starts
    with one), when it is %n and no job has job_id n, and when it is n and no
    job has pid n.  [cmd] is "bg" for bg and "fg" otherwise. *)
Theorem do_bgfg_errors (s : shell) (argv : list string) (o : os) :
  let cmd := if bool_decide (argv !! 0%nat = Some "bg") then "bg" else "fg" in
  (argv !! 1%nat = None →
   complains (cmd +:+ " command requires PID or %jobid argument " +:+ NL) s
             (do_bgfg argv o s)) ∧
  (∀ arg, argv !! 1%nat = Some arg →
   atoi (if starts_with "%"%char arg then plus1 arg else arg) = 0 →
   complains (cmd +:+ ": argument must be a PID or %jobid " +:+ NL) s
             (do_bgfg argv o s)) ∧
  (∀ arg n, argv !! 1%nat = Some (String "%"%char arg) →
   atoi arg = n → n ≠ 0 → free_cleared (jobs s) →
   (∀ job, job ∈ jobs s → occupied job → job_jid job ≠ n) →
   complains ("%" +:+ dec n +:+ ": No such job " +:+ NL) s (do_bgfg argv o s)) ∧
  (∀ arg n, argv !! 1%nat = Some arg → starts_with "%"%char arg = false →
   atoi arg = n → n ≠ 0 →
   (∀ job, job ∈ jobs s → occupied job → job_pid job ≠ n) →
   complains ("(" +:+ dec n +:+ "): No such process " +:+ NL) s (do_bgfg argv o s)).
Proof.
  intros cmd. unfold do_bgfg. fold cmd. repeat split.
  - intros ->. subst cmd. case_bool_decide; apply printf_complains.
  - intros arg -> H0. destruct (starts_with "%"%char arg); rewrite H0;
      rewrite ?andb_false_r, ?orb_true_r; cbn [Z.eqb andb orb negb];
      subst cmd; case_bool_decide; apply printf_complains.
  - intros arg n -> Hn Hne Hc Habs. cbn [starts_with plus1].
    rewrite bool_decide_eq_true_2 by done. rewrite Hn.
    rewrite (proj2 (Z.eqb_neq n 0)) by done.
    rewrite andb_false_r. cbn [andb orb negb].
    rewrite bind_unfold. cbn [get]. rewrite getjobjid_absent by done.
    apply printf_complains.
  - intros arg n -> Hs Hn Hne Habs. rewrite Hs, Hn.
    rewrite (proj2 (Z.eqb_neq n 0)) by done.
    rewrite andb_false_r. cbn [andb orb negb].
    rewrite bind_unfold. cbn [get]. rewrite getjobpid_absent by done.
    apply printf_complains.
Qed.

(** The validation is atoi's: an argument that starts with a number passes
    it as that number. *)
Lemma bg_numeric_prefix_accepted :
  ∃ s', do_bgfg ["bg"; "4242abc"] quiet one_stopped = Ret Returns s' ∧
        jobs s' !! 0%nat = Some (Job 4242 1 BG ("sleep 60" +:+ NL)) ∧
        killed s' = [(-4242, SIGCONT)].
Proof. eexists. split; [vm_compute; reflexivity|]. done. Qed.

Lemma do_bgfg_errors_witness :
  complains ("bg command requires PID or %jobid argument " +:+ NL) one_stopped
            (do_bgfg ["bg"] quiet one_stopped) ∧
  complains ("fg: argument must be a PID or %jobid " +:+ NL) one_stopped
            (do_bgfg ["fg"; "%x1"] quiet one_stopped) ∧
  complains ("%99: No such job " +:+ NL) one_stopped
            (do_bgfg ["fg"; "%99"] quiet one_stopped) ∧
  complains ("(77): No such process " +:+ NL) one_stopped
            (do_bgfg ["bg"; "77"] quiet one_stopped).
Proof.
  destruct (do_bgfg_errors one_stopped ["bg"] quiet) as (H1 & _).
  destruct (do_bgfg_errors one_stopped ["fg"; "%x1"] quiet) as (_ & H2 & _).
  destruct (do_bgfg_errors one_stopped ["fg"; "%99"] quiet) as (_ & _ & H3 & _).
  destruct (do_bgfg_errors one_stopped ["bg"; "77"] quiet) as (_ & _ & _ & H4).
  split; [apply H1; reflexivity|].
  split; [apply (H2 "%x1"); reflexivity|].
  split.
  - apply (H3 "99" 99); [reflexivity | reflexivity | lia | |].
    + apply free_cleared_insert; [apply boot_free_cleared | discriminate].
    + apply (Forall_forall (λ job, occupied job → job_jid job ≠ 99)).
      vm_compute. repeat (apply Forall_cons; split; [intros _; discriminate|]).
      apply Forall_nil. exact I.
  - apply (H4 "77" 77); [reflexivity | reflexivity | reflexivity | lia |].
    apply (Forall_forall (λ job, occupied job → job_pid job ≠ 77)).
    vm_compute. repeat (apply Forall_cons; split; [intros _; discriminate|]).
    apply Forall_nil. exact I.
Defined.

(** ** Well-formed job lists *)

Lemma table_ok_insert js i old job :
  table_ok js → js !! i = Some old →
  occupied job → 0 ≤ job_pid job →
  (∀ j b, js !! j = Some b → j ≠ i → job_pid b ≠ job_pid job) →
  table_ok (<[i:=job]> js).
Proof.
  intros (Hlen & Hc & Hpos & Huniq) Hold Hocc Hp Hfresh.
  pose proof (lookup_lt_Some _ _ _ Hold) as Hlt.
  split; [by rewrite length_insert|]. split; [|split].
  - apply free_cleared_insert; [done|]. intros H0. by destruct Hocc.
  - intros b [k Hk]%list_elem_of_lookup. rewrite list_lookup_insert in Hk.
    case_decide; simplify_eq; [done|]. apply Hpos, list_elem_of_lookup; eauto.
  - intros k l a b Hk Hl Ha Hab.
    destruct (decide (k = i)) as [->|Hki], (decide (l = i)) as [->|Hli]; [done|..].
    + rewrite list_lookup_insert_eq in Hk by done.
      rewrite list_lookup_insert_ne in Hl by done. injection Hk as <-.
      by destruct (Hfresh l b Hl Hli).
    + rewrite list_lookup_insert_ne in Hk by done.
      rewrite list_lookup_insert_eq in Hl by done. injection Hl as <-.
      by destruct (Hfresh k a Hk Hki).
    + rewrite list_lookup_insert_ne in Hk, Hl by done. by eapply Huniq.
Qed.

Lemma boot_table_ok v : table_ok (jobs (boot v)).
Proof.
  assert (∀ job, job ∈ jobs (boot v) → job = Job 0 0 UNDEF "") as Hall.
  { intros job Hin. unfold boot, jobs, initjobs in Hin.
    by apply list_elem_of_fmap in Hin as (y & -> & _). }
  split; [done|]. split; [apply boot_free_cleared|]. split.
  - intros job Hin. by rewrite (Hall job Hin).
  - intros i j a b Hi _ Hocc. exfalso. apply Hocc.
    rewrite (Hall a); [done|]. apply list_elem_of_lookup; eauto.
Qed.

(** ** What the calls do to the table *)

Lemma keeps_ret {A} (a : A) : keeps_table (ret a).
Proof. intros s b s' H. by injection H as _ <-. Qed.

Lemma keeps_exit {A} (code : Z) : keeps_table (@exit A code).
Proof. by intros s b s' H. Qed.

Lemma keeps_printf text : keeps_table (printf text).
Proof. intros s b s' H. by inversion H. Qed.

Lemma keeps_set_errno e : keeps_table (modify (set_errno e)).
Proof. intros s b s' H. by inversion H. Qed.

Lemma keeps_bind {A B} (m : M A) (k : A → M B) :
  keeps_table m → (∀ a, keeps_table (k a)) → keeps_table (m ≫= k).
Proof.
  intros Hm Hk s b s' (a & s1 & H1 & H2)%bind_Ret.
  rewrite (Hk a s1 b s' H2). by eapply Hm.
Qed.

Lemma keeps_get {B} (k : shell → M B) :
  (∀ s, keeps_table (k s)) → keeps_table (get ≫= k).
Proof. intros Hk. apply keeps_bind; [|done]. intros s a s' H. by injection H as _ <-. Qed.

Lemma keeps_when b m : keeps_table m → keeps_table (when b m).
Proof. destruct b; [done|]. intros _. apply keeps_ret. Qed.

Lemma keeps_unix_error {A} msg : keeps_table (@unix_error A msg).
Proof.
  apply keeps_get. intros s. apply keeps_bind; [apply keeps_printf|].
  intros _. apply keeps_exit.
Qed.

Lemma keeps_Kill pid signum r : keeps_table (Kill pid signum r).
Proof.
  apply keeps_bind; [by intros s b s' H; inversion H|]. intros _.
  destruct r as [e|]; [|apply keeps_ret].
  apply keeps_bind; [apply keeps_set_errno|]. intros _.
  destruct (negb (e =? ESRCH)); [apply keeps_unix_error | apply keeps_ret].
Qed.

Lemma keeps_Sigprocmask how set : keeps_table (Sigprocmask how set None).
Proof.
  unfold Sigprocmask. destruct (how =? SIG_BLOCK); [by intros s b s' H; inversion H|].
  destruct (how =? SIG_UNBLOCK); [by intros s b s' H; inversion H|].
  apply keeps_ret.
Qed.

Lemma keeps_listjobs : keeps_table listjobs.
Proof. intros s b s' H. by inversion H. Qed.

Create HintDb keeps.
#[global] Hint Resolve keeps_ret keeps_exit keeps_printf keeps_set_errno keeps_when
  keeps_unix_error keeps_Kill keeps_Sigprocmask keeps_listjobs keeps_bind keeps_get : keeps.

(** Replaces the calls that leave the table alone by what they keep. *)
Ltac mkeep :=
  repeat match goal with
  | H : ?m ?s = Ret ?a ?s' |- _ =>
      let E := fresh "E" in
      assert (jobs s' = jobs s) as E
        by (apply (λ K : keeps_table m, K s a s' H); eauto 10 with keeps);
      clear H
  end.

(** Rewrites with the tables that were kept. *)
Ltac mchain :=
  repeat match goal with
  | E : jobs ?x = jobs ?y |- _ => try rewrite E in *; clear E
  end.

(** Splits a sequence of calls that returned into its calls. *)
Ltac msplit :=
  repeat match goal with
  | H : (_ ≫= _) _ = Ret _ _ |- _ =>
      let a := fresh "a" in let s := fresh "s" in let H1 := fresh "H" in
      apply bind_Ret in H as (a & s & H1 & H)
  | H : get ?s = Ret ?a ?s' |- _ =>
      assert (a = s) by (by inversion H); assert (s' = s) by (by inversion H);
      clear H; subst a; subst s'
  | H : ret ?x ?s = Ret ?a ?s' |- _ =>
      assert (a = x) by (by inversion H); assert (s' = s) by (by inversion H);
      clear H; subst s'; try subst a
  | u : () |- _ => destruct u
  end.

(** In a well-formed table a pid names one slot. *)
Lemma getjobpid_unique js i job :
  table_ok js → js !! i = Some job → occupied job →
  getjobpid js (job_pid job) = Some i.
Proof.
  intros (_ & _ & Hpos & Huniq) Hi Hocc. unfold getjobpid.
  assert (0 ≤ job_pid job) by (apply Hpos, list_elem_of_lookup; eauto).
  unfold occupied in Hocc. rewrite (proj2 (Z.ltb_ge (job_pid job) 1)) by lia.
  destruct (first_slot job_pid (job_pid job) js) as [[k y]|] eqn:Hf.
  - apply first_slot_Some in Hf as (Hk & Hp & _). simpl. f_equal.
    symmetry. eapply (Huniq i k job y); done.
  - rewrite first_slot_None in Hf. destruct (Hf job); [|done].
    apply list_elem_of_lookup; eauto.
Qed.

Lemma store_state_Ret jid v s s' :
  store_state jid v s = Ret () s' →
  ∃ i job, jid = Some i ∧ jobs s !! i = Some job ∧
           jobs s' = <[i:=with_state v job]> (jobs s).
Proof.
  unfold store_state. destruct jid as [i|]; [|done].
  destruct (jobs s !! i) as [job|] eqn:Hi; [|done].
  intros [= <-]. by exists i, job.
Qed.

Lemma load_Ret jid s job s' :
  load jid s = Ret job s' → s' = s ∧ ∃ i, jid = Some i ∧ jobs s !! i = Some job.
Proof.
  unfold load. destruct jid as [i|]; simpl; [|done].
  destruct (jobs s !! i) as [y|] eqn:Hi; [|done]. intros [= <- <-]. eauto.
Qed.

Lemma sigint_handler_keeps sig r : keeps_table (sigint_handler sig r).
Proof. unfold sigint_handler. eauto 12 with keeps. Qed.

Lemma sigtstp_handler_keeps sig r : keeps_table (sigtstp_handler sig r).
Proof. unfold sigtstp_handler. eauto 12 with keeps. Qed.

Lemma addjob_Ret pid state cmdline s b s' :
  addjob pid state cmdline s = Ret b s' →
  (b = false ∧ jobs s' = jobs s) ∨
  (b = true ∧ 0 < pid ∧
   ∃ i old, jobs s !! i = Some old ∧ job_pid old = 0 ∧
            jobs s' = <[i:=Job pid (nextjid s) state cmdline]> (jobs s)).
Proof.
  unfold addjob. destruct (Z.ltb_spec pid 1); [intros [= <- <-]; by left|].
  destruct (first_slot job_pid 0 (jobs s)) as [[i old]|] eqn:Hf;
    [|intros [= <- <-]; by left].
  apply first_slot_Some in Hf as (Hi & Hp & _). intros [= <- <-]. right.
  split; [done|]. split; [lia|]. exists i, old. split; [done|]. split; [done|].
  destruct s as [js n v e bl out k]. cbn [set_jobs set_nextjid jobs nextjid verbose].
  destruct (n + 1 >? MAXJOBS), v; reflexivity.
Qed.

Lemma bgfg_resume_Ret is_BG jid jobid pidt o s r s' :
  bgfg_resume is_BG jid jobid pidt o s = Ret r s' →
  ∃ i job, jid = Some i ∧ jobs s !! i = Some job ∧
           jobs s' = <[i:=with_state (if is_BG then BG else FG) job]> (jobs s) ∧
           r = if is_BG then Returns else Waitfg pidt.
Proof.
  unfold bgfg_resume. destruct is_BG; intros H; msplit.
  - match goal with H : store_state _ _ _ = _ |- _ =>
      apply store_state_Ret in H as (i & job & -> & Hi & Hj) end.
    match goal with H : load _ _ = _ |- _ => apply load_Ret in H as [-> _] end.
    mkeep. mchain. exists i, job. by rewrite Hj.
  - match goal with H : store_state _ _ _ = _ |- _ =>
      apply store_state_Ret in H as (i & job & -> & Hi & Hj) end.
    mkeep. mchain. exists i, job. by rewrite Hj.
Qed.

Lemma Fork_Ret a pid s s' :
  Fork a s = Ret pid s' →
  s' = s ∧ (pid = 0 ∧ a = ForkChild ∨ ∃ child, pid = Z.pos child ∧ a = ForkParent child).
Proof.
  destruct a as [e| |child]; cbn [Fork]; intros H.
  - discriminate H.
  - msplit. eauto.
  - msplit. eauto.
Qed.

Lemma waitfg_test_Ret jid s b s' : waitfg_test jid s = Ret b s' → s' = s.
Proof.
  unfold waitfg_test. intros H. msplit.
  destruct (fgpid (jobs s) =? 0); msplit; [done|].
  by match goal with H : load _ _ = _ |- _ => apply load_Ret in H as [-> _] end.
Qed.

Lemma waitfg_leave_keeps pid : keeps_table (waitfg_leave pid).
Proof. unfold waitfg_leave. eauto 10 with keeps. Qed.

Lemma launched_two_reachable : reachable (InWaitfg 201 (Some 1%nat), launched_two).
Proof.
  exists false.
  apply (rtc_l _ _ (AtPrompt, launched_one)).
  { apply (step_eval_returns ("sleep 9 &" +:+ NL) (parent_of 200)).
    - unfold fresh. cbn [parent_of fork_ans].
      apply (Forall_forall (λ job, job_pid job ≠ 200)). vm_compute.
      repeat (apply Forall_cons; split; [discriminate|]). by apply Forall_nil.
    - vm_compute. reflexivity. }
  apply (rtc_l _ _ (CallWaitfg 201, launched_two)).
  { apply (step_eval_waits ("vi" +:+ NL) (parent_of 201)).
    - unfold fresh. cbn [parent_of fork_ans].
      apply (Forall_forall (λ job, job_pid job ≠ 201)). vm_compute.
      repeat (apply Forall_cons; split; [discriminate|]). by apply Forall_nil.
    - vm_compute. reflexivity. }
  apply rtc_once. apply (step_waitfg_enters 201 launched_two).
Defined.

(** ** At most one foreground job: the running shell *)

Ltac fresh_pid pid :=
  unfold fresh; cbn [parent_of fork_ans];
  apply (Forall_forall (λ job, job_pid job ≠ pid)); vm_compute;
  repeat (apply Forall_cons; split; [discriminate|]); by apply Forall_nil.

Ltac run := vm_compute; reflexivity.

(** The handler of SIGCHLD interrupts [fg %2] after its lookup: the shell
    comes back to the prompt with a cleared slot in state FG, and after
    [fg %3], whose waitfg returns at once, with job 3 in state FG. *)
Lemma stale_fg_reachable : reachable (AtPrompt, race_9).
Proof.
  exists false.
  eapply rtc_l.
  { apply (step_eval_returns ("sleep 1 &" +:+ NL) (parent_of 99) _ race_1);
      [fresh_pid 99 | run]. }
  eapply rtc_l.
  { apply (step_sigchld AtPrompt [(99%positive, Exited 0)] (WaitFailed ECHILD) race_1 race_2);
      run. }
  eapply rtc_l.
  { apply (step_eval_returns ("x &" +:+ NL) (parent_of 100) race_2 race_3);
      [fresh_pid 100 | run]. }
  eapply rtc_l.
  { apply (step_eval_returns ("a &" +:+ NL) (parent_of 101) race_3 race_4);
      [fresh_pid 101 | run]. }
  eapply rtc_l.
  { apply (step_eval_returns ("y &" +:+ NL) (parent_of 102) race_4 race_5);
      [fresh_pid 102 | run]. }
  eapply rtc_l.
  { apply (step_bgfg_finds ("fg %2" +:+ NL) false ["fg"; "%2"] race_5
             (BgfgFound false true 2 1)); [run | by right | run]. }
  eapply rtc_l.
  { apply (step_sigchld (InBgfg (BgfgFound false true 2 1))
             [(101%positive, Exited 0)] NoChange race_5 race_6); run. }
  eapply rtc_l.
  { apply (step_bgfg_next (BgfgFound false true 2 1) quiet race_6
             (BgfgRead false 1 2 0) race_6); run. }
  eapply rtc_l.
  { apply (step_bgfg_next (BgfgRead false 1 2 0) quiet race_6
             (BgfgStored false 1 2 0) race_7); run. }
  eapply rtc_l.
  { apply (step_bgfg_next (BgfgStored false 1 2 0) quiet race_7
             (BgfgKilled false 1 2 0) race_8); run. }
  eapply rtc_l.
  { apply (step_bgfg_waits (BgfgKilled false 1 2 0) quiet race_8 0 race_8); run. }
  eapply rtc_l.
  { apply (step_waitfg_enters 0 race_8). }
  eapply rtc_l.
  { apply (step_waitfg_returns 0 _ race_8 race_8 race_8); run. }
  eapply rtc_l.
  { apply (step_eval_waits ("fg %3" +:+ NL) quiet race_8 race_9 102); [exact I | run]. }
  eapply rtc_l.
  { apply (step_waitfg_enters 102 race_9). }
  apply rtc_once. apply (step_waitfg_returns 102 _ race_9 race_9 race_9); run.
Qed.

Lemma two_fg_reachable : ∃ f, reachable (f, two_fg).
Proof.
  exists (CallWaitfg 100). destruct stale_fg_reachable as [v Hrun]. exists v.
  eapply rtc_r; [exact Hrun|].
  apply (step_eval_waits ("fg %1" +:+ NL) quiet race_9 two_fg 100); [exact I | run].
Qed.

(** C9 (the code departs from it).  The running shell reaches a state in
    which two jobs are in state FG.  do_bgfg does not block SIGCHLD: when
    the handler deletes the job between the lookup of [fg %2] and
    [jid->state = FG], that statement leaves a cleared slot in state FG.
    fgpid then answers the pid 0 of that slot, so that the waitfg of the
    next [fg %3] returns at once with job 3 in state FG, and [fg %1] puts
    job 1 in state FG as well: slots 0 and 2 are occupied and in state FG
    when waitfg(100) is called. *)
Theorem two_foreground_jobs_reachable :
  reachable (CallWaitfg 100, two_fg) ∧
  jobs two_fg !! 0%nat = Some (Job 100 1 FG ("x &" +:+ NL)) ∧
  jobs two_fg !! 2%nat = Some (Job 102 3 FG ("y &" +:+ NL)) ∧
  ¬ at_most_one_fg (jobs two_fg).
Proof.
  split; [|split; [reflexivity|split; [reflexivity|]]].
  - destruct stale_fg_reachable as [v Hrun]. exists v.
    eapply rtc_r; [exact Hrun|].
    apply (step_eval_waits ("fg %1" +:+ NL) quiet race_9 two_fg 100); [exact I | run].
  - intros H.
    assert (0%nat = 2%nat); [|discriminate].
    by apply (H 0%nat 2%nat (Job 100 1 FG ("x &" +:+ NL)) (Job 102 3 FG ("y &" +:+ NL))).
Qed.

(** * Further properties of the job list *)

(** A scan is not disturbed by a write to a slot that did not and does not
    hold the value looked for. *)
Lemma first_slot_insert_other f v js i old new :
  js !! i = Some old → f old ≠ v → f new ≠ v →
  first_slot f v (<[i:=new]> js) = first_slot f v js.
Proof.
  intros Hold Ho Hn. pose proof (lookup_lt_Some _ _ _ Hold) as Hlt.
  destruct (first_slot f v js) as [[k y]|] eqn:Hf.
  - apply first_slot_Some in Hf as (Hk & Hy & Hlow). apply first_slot_Some.
    assert (k ≠ i) as Hne by (intros ->; congruence).
    split; [by rewrite list_lookup_insert_ne|]. split; [done|].
    intros j z Hj Hji. rewrite list_lookup_insert in Hj.
    case_decide; simplify_eq; [done|]. by eapply Hlow.
  - rewrite first_slot_None in Hf. apply first_slot_None.
    intros z [j Hj]%list_elem_of_lookup. rewrite list_lookup_insert in Hj.
    case_decide; simplify_eq; [done|]. apply Hf, list_elem_of_lookup; eauto.
Qed.

(** A write of the value looked for to a slot below which nothing holds it
    makes that slot the answer of the scan. *)
Lemma first_slot_insert_here f v js i old new :
  js !! i = Some old → f new = v →
  (∀ j y, js !! j = Some y → (j < i)%nat → f y ≠ v) →
  first_slot f v (<[i:=new]> js) = Some (i, new).
Proof.
  intros Hold Hn Hlow. pose proof (lookup_lt_Some _ _ _ Hold) as Hlt.
  apply first_slot_Some. split; [by apply list_lookup_insert_eq|]. split; [done|].
  intros j y Hj Hji. rewrite list_lookup_insert_ne in Hj by lia. by eapply Hlow.
Qed.

Lemma addjob_found (s s' : shell) (pid state : Z) (cmdline : string) :
  addjob pid state cmdline s = Ret true s' →
  (∀ job, job ∈ jobs s → job_pid job ≠ pid) →
  ∃ i, getjobpid (jobs s') pid = Some i ∧
       jobs s' !! i = Some (Job pid (nextjid s) state cmdline) ∧
       pid2jid (jobs s') pid = nextjid s.
Proof.
  intros [[? _]|(_ & Hp & i & old & Hi & Hold & ->)]%addjob_Ret Hfresh; [done|].
  pose proof (lookup_lt_Some _ _ _ Hi) as Hlt.
  assert (first_slot job_pid pid (<[i:=Job pid (nextjid s) state cmdline]> (jobs s))
          = Some (i, Job pid (nextjid s) state cmdline)) as Hfound.
  { apply (first_slot_insert_here _ _ _ _ old); [done..|].
    intros j y Hj _. apply Hfresh, list_elem_of_lookup. eauto. }
  exists i. unfold getjobpid, pid2jid. rewrite (proj2 (Z.ltb_ge pid 1)) by lia.
  rewrite Hfound. split; [done|]. split; [by apply list_lookup_insert_eq|done].
Qed.

(** X1.  A job that addjob has stored is found by its pid: getjobpid answers
    the slot that holds exactly the pid, state and command line given, and
    pid2jid answers the job id, which is the counter as it was before the
    call.  The pid is one that no slot held before. *)
Theorem addjob_then_lookup (s s' : shell) (pid state : Z) (cmdline : string) :
  addjob pid state cmdline s = Ret true s' →
  (∀ job, job ∈ jobs s → job_pid job ≠ pid) →
  ∃ i, getjobpid (jobs s') pid = Some i ∧
       jobs s' !! i = Some (Job pid (nextjid s) state cmdline) ∧
       pid2jid (jobs s') pid = nextjid s.
Proof. apply addjob_found. Qed.

Lemma boot_no_pid v pid : pid ≠ 0 → ∀ job, job ∈ jobs (boot v) → job_pid job ≠ pid.
Proof.
  intros Hp job Hin. rewrite (boot_free_cleared v job Hin); [done|].
  unfold boot, jobs, initjobs in Hin. by apply list_elem_of_fmap in Hin as (y & -> & _).
Qed.

Lemma addjob_then_lookup_witness :
  ∃ s' i, addjob 500 BG "ls" (boot false) = Ret true s' ∧
          getjobpid (jobs s') 500 = Some i ∧
          jobs s' !! i = Some (Job 500 1 BG "ls") ∧ pid2jid (jobs s') 500 = 1.
Proof.
  exists (after (addjob 500 BG "ls") (boot false)).
  destruct (addjob_then_lookup (boot false) (after (addjob 500 BG "ls") (boot false))
              500 BG "ls") as (i & H1 & H2 & H3).
  - vm_compute. reflexivity.
  - by apply boot_no_pid.
  - exists i. split; [vm_compute; reflexivity|]. split; [exact H1|].
    split; [exact H2 | exact H3].
Defined.

(** X2.  deletejob undoes addjob: after a job has been added under a pid
    that no slot held, deleting that pid succeeds and leaves the job list
    exactly as it was before the addjob, with the counter at maxjid + 1 of
    that list (which need not be the counter before the addjob). *)
Theorem addjob_then_deletejob (s s1 : shell) (pid state : Z) (cmdline : string) :
  free_cleared (jobs s) →
  (∀ job, job ∈ jobs s → job_pid job ≠ pid) →
  addjob pid state cmdline s = Ret true s1 →
  ∃ s2, deletejob pid s1 = Ret true s2 ∧
        jobs s2 = jobs s ∧ nextjid s2 = maxjid (jobs s) + 1.
Proof.
  intros Hc Hfresh Hadd.
  pose proof Hadd as [[? _]|(_ & Hp & i & old & Hi & Hold & Hj)]%addjob_Ret; [done|].
  pose proof (lookup_lt_Some _ _ _ Hi) as Hlt.
  assert (old = Job 0 0 UNDEF "") as ->
    by (apply Hc; [apply list_elem_of_lookup; eauto | done]).
  assert (lowest_with_pid (jobs s1) pid i) as Hlow.
  { apply first_slot_lowest_with_pid. eexists. rewrite Hj.
    apply (first_slot_insert_here _ _ _ _ (Job 0 0 UNDEF "")); [done..|].
    intros j y Hy _. apply Hfresh, list_elem_of_lookup. eauto. }
  rewrite (deletejob_clears s1 pid i) by done. eexists. split; [reflexivity|].
  cbn [jobs nextjid set_jobs set_nextjid]. rewrite Hj, list_insert_insert_eq.
  by rewrite (list_insert_id _ _ _ Hi).
Qed.

Lemma addjob_then_deletejob_witness :
  ∃ s1 s2, addjob 500 BG "ls" one_stopped = Ret true s1 ∧
           deletejob 500 s1 = Ret true s2 ∧
           jobs s2 = jobs one_stopped ∧ nextjid s2 = 2.
Proof.
  exists (after (addjob 500 BG "ls") one_stopped).
  destruct (addjob_then_deletejob one_stopped (after (addjob 500 BG "ls") one_stopped)
              500 BG "ls") as (s2 & H1 & H2 & H3).
  - apply free_cleared_insert; [apply boot_free_cleared | discriminate].
  - apply (Forall_forall (λ job, job_pid job ≠ 500)). vm_compute.
    repeat (apply Forall_cons; split; [discriminate|]). by apply Forall_nil.
  - vm_compute. reflexivity.
  - exists s2. split; [vm_compute; reflexivity|]. split; [exact H1|]. split; [exact H2|].
    rewrite H3. reflexivity.
Defined.

(** X3.  In a well-formed table, a pid that deletejob has removed is not
    found any more -- getjobpid answers NULL and pid2jid 0 -- and every other
    pid is found in the slot where it was. *)
Theorem deletejob_then_lookup (s s' : shell) (pid : Z) :
  table_ok (jobs s) →
  deletejob pid s = Ret true s' →
  getjobpid (jobs s') pid = None ∧
  pid2jid (jobs s') pid = 0 ∧
  ∀ q, q ≠ pid → getjobpid (jobs s') q = getjobpid (jobs s) q ∧
                 pid2jid (jobs s') q = pid2jid (jobs s) q.
Proof.
  intros Hok Hdel. unfold deletejob in Hdel.
  destruct (Z.ltb_spec pid 1) as [|Hp]; [done|].
  destruct (first_slot job_pid pid (jobs s)) as [[i old]|] eqn:Hfound; [|done].
  injection Hdel as <-. cbn [jobs set_jobs set_nextjid].
  apply first_slot_Some in Hfound as (Hi & Hpid & _).
  pose proof (lookup_lt_Some _ _ _ Hi) as Hlt.
  assert (first_slot job_pid pid (<[i:=clearjob old]> (jobs s)) = None) as Hgone.
  { apply first_slot_None. intros y [k Hk]%list_elem_of_lookup Hy.
    rewrite list_lookup_insert in Hk. case_decide; simplify_eq; [simpl in *; lia|].
    destruct Hok as (_ & _ & _ & Huniq).
    assert (i = k); [|naive_solver].
    eapply (Huniq i k old y); [done..| |congruence]. unfold occupied. lia. }
  unfold getjobpid, pid2jid. rewrite Hgone. rewrite (proj2 (Z.ltb_ge pid 1)) by lia.
  split; [done|]. split; [done|]. intros q Hq.
  destruct (Z.ltb_spec q 1) as [|Hq1]; [done|].
  rewrite (first_slot_insert_other job_pid q _ i old); [done | done | congruence |].
  simpl. lia.
Qed.

Lemma launched_two_ok : table_ok (jobs launched_two).
Proof.
  assert (jobs launched_two
          = <[1%nat:=Job 201 2 FG ("vi" +:+ NL)]>
              (<[0%nat:=Job 200 1 BG ("sleep 9 &" +:+ NL)]> (jobs (boot false)))) as ->
    by reflexivity.
  apply (table_ok_insert _ _ (Job 0 0 UNDEF "")); [|reflexivity|discriminate|done|].
  - apply (table_ok_insert _ _ (Job 0 0 UNDEF "")); [|reflexivity|discriminate|done|].
    + apply boot_table_ok.
    + intros j b Hj _. assert (b ∈ jobs (boot false)) as Hin by (apply list_elem_of_lookup; eauto).
      unfold boot, jobs, initjobs in Hin.
      by apply list_elem_of_fmap in Hin as (y & -> & _).
  - intros j b Hj Hne. destruct j as [|[|j]]; [|done|].
    + injection Hj as <-. discriminate.
    + assert (b ∈ jobs (boot false)) as Hin.
      { apply list_elem_of_lookup. exists (S (S j)). exact Hj. }
      unfold boot, jobs, initjobs in Hin.
      by apply list_elem_of_fmap in Hin as (y & -> & _).
Qed.

Lemma deletejob_then_lookup_witness :
  ∃ s', deletejob 200 launched_two = Ret true s' ∧
        getjobpid (jobs s') 200 = None ∧ pid2jid (jobs s') 200 = 0 ∧
        getjobpid (jobs s') 201 = Some 1%nat ∧ pid2jid (jobs s') 201 = 2.
Proof.
  exists (after (deletejob 200) launched_two).
  destruct (deletejob_then_lookup launched_two (after (deletejob 200) launched_two) 200)
    as (H1 & H2 & H3).
  - apply launched_two_ok.
  - vm_compute. reflexivity.
  - split; [vm_compute; reflexivity|]. split; [exact H1|]. split; [exact H2|].
    destruct (H3 201) as [H4 H5]; [lia|]. rewrite H4, H5. split; reflexivity.
Defined.

(** X4.  maxjid answers 0 on a list without positive job ids; otherwise it
    answers the job id of some slot, and no slot has a larger one. *)
Theorem maxjid_spec (js : list job_t) :
  (∀ job, job ∈ js → job_jid job ≤ maxjid js) ∧
  (maxjid js = 0 ∨ ∃ job, job ∈ js ∧ job_jid job = maxjid js ∧ 0 < job_jid job).
Proof.
  split; [apply jid_le_maxjid|]. rewrite maxjid_foldr.
  induction js as [|job js IH]; [by left|]. rewrite fmap_cons. simpl.
  pose proof (foldr_max_nonneg (job_jid <$> js)) as Hnn.
  destruct (decide (job_jid job ≤ foldr Z.max 0 (job_jid <$> js))) as [Hle|Hgt].
  - rewrite Z.max_r by done. destruct IH as [IH|(y & Hy & Heq & Hpos)]; [by left|].
    right. exists y. split; [by right|done].
  - rewrite Z.max_l by lia. right. exists job. split; [by left|]. split; [done|lia].
Qed.

(** X5.  In a table whose free slots are cleared, fgpid answers 0 exactly
    when no job is in state FG, and otherwise the pid of the job in state FG
    that stands first in the table. *)
Theorem fgpid_spec (js : list job_t) :
  free_cleared js →
  (fgpid js = 0 ↔ ∀ job, job ∈ js → job_state job ≠ FG) ∧
  (fgpid js ≠ 0 →
   ∃ i job, js !! i = Some job ∧ job_state job = FG ∧ job_pid job = fgpid js ∧
            ∀ j y, js !! j = Some y → (j < i)%nat → job_state y ≠ FG).
Proof.
  intros Hc. unfold fgpid.
  destruct (first_slot job_state FG js) as [[i job]|] eqn:Hf.
  - apply first_slot_Some in Hf as (Hi & Hst & Hlow).
    assert (job ∈ js) as Hin by (apply list_elem_of_lookup; eauto).
    assert (job_pid job ≠ 0) as Hocc.
    { intros H0. rewrite (Hc job Hin H0) in Hst. done. }
    split; [|intros _; by exists i, job].
    split; [done|]. intros Hnone. by destruct (Hnone job Hin).
  - rewrite first_slot_None in Hf. split; [|done]. done.
Qed.

Lemma fgpid_spec_witness :
  fgpid (jobs launched_two) = 201 ∧
  (fgpid (jobs two_running) = 0 ↔ ∀ job, job ∈ jobs two_running → job_state job ≠ FG).
Proof.
  split; [reflexivity|].
  apply (fgpid_spec (jobs two_running)). unfold free_cleared.
  apply (Forall_forall (λ job, job_pid job = 0 → job = Job 0 0 UNDEF "")). vm_compute.
  repeat (apply Forall_cons; split; [intros H0; first [discriminate H0 | reflexivity]|]).
  by apply Forall_nil.
Defined.

(** X6.  initjobs empties any job list and keeps its length: afterwards no
    pid and no job id is found, maxjid and fgpid answer 0, and every slot is
    cleared. *)
Theorem initjobs_empty (js : list job_t) (pid jid : Z) :
  length (initjobs js) = length js ∧
  getjobpid (initjobs js) pid = None ∧
  getjobjid (initjobs js) jid = None ∧
  pid2jid (initjobs js) pid = 0 ∧
  maxjid (initjobs js) = 0 ∧
  fgpid (initjobs js) = 0 ∧
  free_cleared (initjobs js).
Proof.
  assert (∀ job, job ∈ initjobs js → job = Job 0 0 UNDEF "") as Hall.
  { intros job Hin. unfold initjobs in Hin.
    by apply list_elem_of_fmap in Hin as (y & -> & _). }
  split; [apply length_fmap|].
  assert (∀ v, v ≠ 0 → first_slot job_pid v (initjobs js) = None) as Hpid.
  { intros v Hv. apply first_slot_None. intros job Hin. by rewrite (Hall job Hin). }
  assert (∀ v, v ≠ 0 → first_slot job_jid v (initjobs js) = None) as Hjid.
  { intros v Hv. apply first_slot_None. intros job Hin. by rewrite (Hall job Hin). }
  assert (first_slot job_state FG (initjobs js) = None) as Hfg.
  { apply first_slot_None. intros job Hin. by rewrite (Hall job Hin). }
  unfold getjobpid, getjobjid, pid2jid, fgpid. rewrite Hfg.
  destruct (Z.ltb_spec pid 1), (Z.ltb_spec jid 1); rewrite ?Hpid, ?Hjid by lia;
    (repeat split; try done;
     [apply maxjid_all_free; intros job Hin; by rewrite (Hall job Hin)
     |intros job Hin _; by apply Hall]).
Qed.

Lemma listjobs_line_tracked i job :
  (occupied job → tracked_state job) →
  listjobs_line i job = if job_pid job =? 0 then "" else job_line job.
Proof.
  intros Htr. unfold listjobs_line, job_line.
  destruct (Z.eqb_spec (job_pid job) 0) as [|Hocc]; [done|].
  destruct (Htr Hocc) as [-> | [-> | ->]]; reflexivity.
Qed.

Lemma imap_lines (f : nat → job_t → string) (js : list job_t) :
  (∀ i job, job ∈ js → f i job = if job_pid job =? 0 then "" else job_line job) →
  foldr String.append "" (imap f js) =
  foldr String.append "" (job_line <$> filter occupied js).
Proof.
  revert f. induction js as [|job js IH]; intros f Hf; [done|].
  rewrite imap_cons, filter_cons. cbn [foldr].
  rewrite (IH (f ∘ S)) by (intros i y Hy; apply Hf; by right).
  rewrite (Hf 0%nat job) by by left. unfold occupied.
  destruct (Z.eqb_spec (job_pid job) 0) as [H0|H0].
  - by rewrite decide_False by (intros H; by apply H).
  - by rewrite decide_True by done.
Qed.

(** X7.  The jobs command prints one line per occupied slot, in the order of
    the slots, [job_id] (pid), the state as Running, Foreground or Stopped,
    and the command line; free slots print nothing, and nothing but the
    output changes.  The jobs are in one of the three states. *)
Theorem listjobs_lines (s : shell) :
  (∀ job, job ∈ jobs s → occupied job → tracked_state job) →
  listjobs s =
    Ret () (put (foldr String.append "" (job_line <$> filter occupied (jobs s))) s).
Proof.
  intros Htr. unfold listjobs. do 2 f_equal. apply imap_lines.
  intros i job Hin. apply listjobs_line_tracked. by apply Htr.
Qed.

Lemma listjobs_lines_witness :
  ∃ s', listjobs launched_two = Ret () s' ∧
        stdout s' = stdout launched_two +:+
                    "[1] (200) Running sleep 9 &" +:+ NL +:+
                    "[2] (201) Foreground vi" +:+ NL.
Proof.
  eexists. split.
  - apply (listjobs_lines launched_two).
    apply (Forall_forall (λ job, occupied job → tracked_state job)). vm_compute.
    repeat (apply Forall_cons; split;
            [first [intros _; by left | intros _; right; by left | intros H; by destruct H]|]).
    by apply Forall_nil.
  - vm_compute. reflexivity.
Defined.

(** * Further properties of parseline *)

Lemma app_cons (c : ascii) (a b : string) : String c a +:+ b = String c (a +:+ b).
Proof. reflexivity. Qed.


Lemma length_app_str (a b : string) :
  String.length (a +:+ b) = (String.length a + String.length b)%nat.
Proof. induction a as [|x a IH]; [done|]. rewrite app_cons. simpl. by rewrite IH. Qed.












Lemma parseline_spaces (n : nat) (line : string) :
  parseline (spaces n +:+ line) = parseline line ∧
  parseline (spaces n +:+ NL) = (true, []).
Proof.
  assert (∀ l, skip_spaces (replace_last " "%char (spaces n +:+ l))
               = skip_spaces (replace_last " "%char l)) as Hskip.
  { intros l. induction n as [|n IH]; [done|]. cbn [spaces]. rewrite app_cons, <- IH.
    destruct (spaces n +:+ l) as [|a r]; reflexivity. }
  unfold parseline. rewrite !Hskip. split; [done|]. reflexivity.
Qed.

(** X9.  Spaces before the command do not count, and a line of spaces only
    has no arguments: it parses like the empty line, with the background
    flag set. *)
Theorem parseline_leading_spaces (n : nat) (line : string) :
  parseline (spaces n +:+ line) = parseline line ∧
  parseline (spaces n +:+ NL) = (true, []).
Proof. apply parseline_spaces. Qed.





(** * Further properties of dispatch *)

(** X11.  A line of spaces only is a no-op: eval returns with the state as
    it was, whatever the operating system would have answered. *)
Theorem eval_blank_line (n : nat) (o : os) (s : shell) :
  eval (spaces n +:+ NL) o s = Ret Returns s.
Proof. unfold eval. by rewrite (proj2 (parseline_spaces n NL)). Qed.

Lemma do_bgfg_no_fork argv o o' :
  kill_ans o = kill_ans o' → do_bgfg argv o = do_bgfg argv o'.
Proof.
  intros Hk. unfold do_bgfg, bgfg_resume. by rewrite Hk.
Qed.

(** What do_bgfg does to the job list, when it returns: nothing, or it sets
    the state of one job. *)
Lemma do_bgfg_Ret_jobs argv o s r s' :
  do_bgfg argv o s = Ret r s' →
  jobs s' = jobs s ∨
  ∃ i job v, jobs s !! i = Some job ∧ jobs s' = <[i:=with_state v job]> (jobs s).
Proof.
  unfold do_bgfg. cbv zeta. generalize (bool_decide (argv !! 0%nat = Some "bg")).
  intros is_BG H.
  destruct (argv !! 1%nat) as [arg|].
  2:{ left. destruct is_BG; msplit; mkeep; by mchain. }
  destruct (_ || _).
  { left. destruct is_BG; msplit; mkeep; by mchain. }
  msplit. destruct (starts_with "%"%char arg).
  - destruct (getjobjid (jobs s) (atoi (plus1 arg))) as [i|].
    2:{ left. msplit. mkeep. by mchain. }
    msplit.
    match goal with H : load _ _ = _ |- _ => apply load_Ret in H as [-> _] end.
    apply bgfg_resume_Ret in H as (k & job & _ & Hk & Hj & _). right. eauto.
  - destruct (getjobpid (jobs s) (atoi arg)) as [i|].
    2:{ left. msplit. mkeep. by mchain. }
    msplit.
    match goal with H : load _ _ = _ |- _ => apply load_Ret in H as [-> _] end.
    apply bgfg_resume_Ret in H as (k & job & _ & Hk & Hj & _). right. eauto.
Qed.

Lemma with_state_pids (js : list job_t) (i : nat) (job : job_t) (v : Z) :
  js !! i = Some job →
  job_pid <$> <[i:=with_state v job]> js = job_pid <$> js ∧
  job_jid <$> <[i:=with_state v job]> js = job_jid <$> js.
Proof.
  intros Hi. rewrite !list_fmap_insert.
  split; apply list_insert_id; by rewrite list_lookup_fmap, Hi.
Qed.

(** X12.  Built-in commands never fork: for a line whose first argument is
    quit, jobs, bg or fg, what eval does is the same whatever fork and
    execve would answer, and when eval returns the table holds the same
    pids and job ids in the same slots. *)
Theorem eval_builtin_no_fork
    (s : shell) (cmdline : string) (bg : bool) (arg0 : string) (args : list string)
    (o o' : os) :
  parseline cmdline = (bg, arg0 :: args) →
  is_builtin arg0 →
  kill_ans o = kill_ans o' →
  eval cmdline o s = eval cmdline o' s ∧
  ∀ r s', eval cmdline o s = Ret r s' →
          job_pid <$> jobs s' = job_pid <$> jobs s ∧
          job_jid <$> jobs s' = job_jid <$> jobs s.
Proof.
  intros Hparse Hb Hk. unfold eval. rewrite Hparse.
  assert (builtin_cmd (arg0 :: args) o = builtin_cmd (arg0 :: args) o') as Hsame.
  { unfold builtin_cmd. by rewrite (do_bgfg_no_fork _ o o' Hk). }
  assert (∀ b s1, builtin_cmd (arg0 :: args) o s = Ret b s1 →
                  ∃ r, b = Some r ∧
                       job_pid <$> jobs s1 = job_pid <$> jobs s ∧
                       job_jid <$> jobs s1 = job_jid <$> jobs s) as Hbuiltin.
  { intros b s1. unfold builtin_cmd. cbn [lookup list_lookup default].
    destruct Hb as [-> | [-> | [-> | ->]]]; intros H; unfold id in H;
      repeat match type of H with
             | context [bool_decide ?P] =>
                 let b := eval vm_compute in (bool_decide P) in
                 change (bool_decide P) with b in H
             end; cbn [orb] in H.
    - done.
    - msplit. exists a. split; [done|].
      match goal with H : do_bgfg _ _ _ = _ |- _ =>
        pose proof (do_bgfg_Ret_jobs _ _ _ _ _ H) as Hj end.
      destruct Hj as [-> | (i & job & v & Hi & ->)]; [done|]. by apply with_state_pids.
    - msplit. exists a. split; [done|].
      match goal with H : do_bgfg _ _ _ = _ |- _ =>
        pose proof (do_bgfg_Ret_jobs _ _ _ _ _ H) as Hj end.
      destruct Hj as [-> | (i & job & v & Hi & ->)]; [done|]. by apply with_state_pids.
    - msplit. exists Returns. split; [done|]. mkeep. by mchain. }
  split.
  - rewrite !bind_unfold, Hsame.
    destruct (builtin_cmd (arg0 :: args) o' s) as [b s1| | |] eqn:Hrun; [|done..].
    rewrite <- Hsame in Hrun. by destruct (Hbuiltin b s1 Hrun) as (r & -> & _).
  - intros r s' H. msplit.
    match goal with H : builtin_cmd _ _ _ = _ |- _ =>
      destruct (Hbuiltin _ _ H) as (r' & -> & Hp & Hj) end.
    by msplit.
Qed.

Lemma eval_builtin_no_fork_witness :
  eval ("bg %1" +:+ NL) quiet one_stopped = eval ("bg %1" +:+ NL) (parent_of 77) one_stopped.
Proof.
  apply (eval_builtin_no_fork one_stopped ("bg %1" +:+ NL) false "bg" ["%1"]).
  - vm_compute. reflexivity.
  - right. by left.
  - reflexivity.
Defined.

(** X13.  When fork fails the shell itself ends: eval prints
    [Fork error: <text of errno>] and exits with status 1; no job has been
    added.  The errno is one that fork documents: EAGAIN, ENOMEM or ENOSYS,
    with the texts [Resource temporarily unavailable], [Cannot allocate
    memory] and [Function not implemented]. *)
Theorem eval_fork_failure
    (s : shell) (cmdline : string) (o : os) (bg : bool) (arg0 : string)
    (args : list string) (e : Z) :
  parseline cmdline = (bg, arg0 :: args) →
  ¬ is_builtin arg0 →
  fork_ans o = ForkFailed e →
  e = EAGAIN ∨ e = ENOMEM ∨ e = ENOSYS →
  ∃ s', eval cmdline o s = Exit 1 s' ∧
        stdout s' = stdout s +:+ "Fork error: " +:+
                    (if e =? EAGAIN then "Resource temporarily unavailable"
                     else if e =? ENOMEM then "Cannot allocate memory"
                     else "Function not implemented") +:+ NL ∧
        jobs s' = jobs s ∧ nextjid s' = nextjid s ∧ killed s' = killed s.
Proof.
  intros Hparse Hn Hfork He. unfold eval. rewrite Hparse.
  rewrite bind_unfold, builtin_cmd_other by done.
  rewrite Hfork. eexists. split; [reflexivity|].
  destruct He as [-> | [-> | ->]]; done.
Qed.

Lemma eval_fork_failure_witness :
  ∃ s', eval ("/bin/ls" +:+ NL) (Os (ForkFailed 11) None None None) two_running = Exit 1 s' ∧
        stdout s' = stdout two_running +:+
                    "Fork error: Resource temporarily unavailable" +:+ NL ∧
        jobs s' = jobs two_running.
Proof.
  destruct (eval_fork_failure two_running ("/bin/ls" +:+ NL) (Os (ForkFailed 11) None None None)
              false "/bin/ls" [] 11) as (s' & H & Hout & Hj & _).
  - vm_compute. reflexivity.
  - unfold is_builtin. intros [H|[H|[H|H]]]; discriminate.
  - reflexivity.
  - by left.
  - exists s'. split; [exact H|]. split; [exact Hout | exact Hj].
Defined.

(** X14.  In the child, when execve succeeds, the program runs with the
    argument vector parseline built, SIGCHLD is not blocked any more, and
    the shell's code has printed nothing and touched no job. *)
Theorem eval_child_runs
    (s : shell) (cmdline : string) (o : os) (bg : bool) (arg0 : string)
    (args : list string) :
  parseline cmdline = (bg, arg0 :: args) →
  ¬ is_builtin arg0 →
  fork_ans o = ForkChild →
  execve_err o = None →
  ∃ s', eval cmdline o s = Replaced arg0 (arg0 :: args) s' ∧
        sigchld_blocked s' = false ∧
        stdout s' = stdout s ∧ jobs s' = jobs s ∧ nextjid s' = nextjid s ∧
        killed s' = killed s.
Proof.
  intros Hparse Hn Hfork Hexec. unfold eval. rewrite Hparse.
  rewrite bind_unfold, builtin_cmd_other by done.
  rewrite Hfork, Hexec. eexists. split; [reflexivity|].
  split; [|done]. cbn. apply andb_false_r.
Qed.

Lemma eval_child_runs_witness :
  ∃ s', eval ("/bin/echo 'a b' &" +:+ NL) (Os ForkChild None None None) two_running
        = Replaced "/bin/echo" ["/bin/echo"; "a b"] s' ∧
        sigchld_blocked s' = false ∧ jobs s' = jobs two_running.
Proof.
  destruct (eval_child_runs two_running ("/bin/echo 'a b' &" +:+ NL) (Os ForkChild None None None)
              true "/bin/echo" ["a b"]) as (s' & H & Hm & _ & Hj & _).
  - vm_compute. reflexivity.
  - unfold is_builtin. intros [H|[H|[H|H]]]; discriminate.
  - reflexivity.
  - reflexivity.
  - exists s'. split; [exact H|]. split; [exact Hm | exact Hj].
Defined.

(** X15.  A launch, seen from the shell.  The new job takes the lowest free
    slot with the child's pid, the counter as its job id, the whole command
    line, and state BG or FG.  A background launch prints exactly
    [job_id] (pid) command line and returns; a foreground launch prints
    nothing and goes on to waitfg(pid), which will look at that same slot.
    SIGCHLD is not blocked afterwards.  No SIGCHLD is pending when eval
    unblocks it ([parent_of]): no child has changed state since eval
    blocked the signal, so that no handler runs inside the call.  (The
    shell runs without -v, and the pid is one that no slot holds.) *)
Theorem eval_launch
    (s : shell) (cmdline : string) (bg : bool) (arg0 : string) (args : list string)
    (child : positive) (i : nat) :
  parseline cmdline = (bg, arg0 :: args) →
  ¬ is_builtin arg0 →
  lowest_free (jobs s) i →
  (∀ job, job ∈ jobs s → job_pid job ≠ Z.pos child) →
  verbose s = false →
  ∃ s', eval cmdline (parent_of child) s
        = Ret (if bg then Returns else Waitfg (Z.pos child)) s' ∧
        jobs s' = <[i:=Job (Z.pos child) (nextjid s) (if bg then BG else FG) cmdline]> (jobs s) ∧
        nextjid s' = bumped (nextjid s) ∧
        stdout s' = (if bg
                     then stdout s +:+ "[" +:+ dec (nextjid s) +:+ "] (" +:+
                          dec (Z.pos child) +:+ ") " +:+ cmdline
                     else stdout s) ∧
        sigchld_blocked s' = false ∧ killed s' = killed s ∧
        waitfg_enter (Z.pos child) s' = Some i.
Proof.
  intros Hparse Hn Hfree Hfresh Hv. unfold eval. rewrite Hparse.
  rewrite bind_unfold, builtin_cmd_other by done. cbv zeta.
  rewrite bind_unfold. cbn [Sigprocmask Z.eqb SIG_BLOCK modify].
  rewrite bind_unfold. cbn [parent_of fork_ans Fork ret Z.eqb].
  rewrite bind_unfold. cbn [ret].
  set (s1 := set_sigchld_blocked _ s).
  assert (lowest_free (jobs s1) i) as Hfree1 by done.
  assert (∀ job, job ∈ jobs s1 → job_pid job ≠ Z.pos child) as Hfresh1 by done.
  set (st := if bg then BG else FG).
  destruct (addjob_inserts s1 (Z.pos child) st cmdline i)
    as (s2 & Hadd & Hj & Hnext & Hout & _ & _ & Hmask & Hkill); [done..|].
  destruct (addjob_found s1 s2 (Z.pos child) st cmdline Hadd Hfresh1)
    as (k & Hk & Hslot & Hjid).
  assert (k = i) as ->.
  { rewrite Hj in Hslot. destruct Hfree as [(old & Hold%lookup_lt_Some & _) _].
    destruct (decide (k = i)) as [|Hne]; [done|]. exfalso.
    rewrite list_lookup_insert_ne in Hslot by done.
    apply (Hfresh (Job (Z.pos child) (nextjid s1) st cmdline)); [|done].
    apply list_elem_of_lookup. eauto. }
  replace (verbose s1) with false in Hout by (by rewrite <- Hv).
  rewrite append_empty_r in Hout.
  subst st. destruct bg; cbn [negb]; rewrite bind_unfold, Hadd.
  - rewrite bind_unfold. cbn [Sigprocmask Z.eqb Pos.eqb SIG_UNBLOCK SIG_BLOCK modify].
    rewrite bind_unfold. cbn [get]. rewrite bind_unfold. cbn [printf modify ret].
    eexists. split; [reflexivity|].
    cbn [jobs nextjid stdout sigchld_blocked killed put set_sigchld_blocked].
    rewrite Hjid, Hout, Hkill.
    repeat split; first [done | rewrite Hmask; apply andb_false_r | exact Hk].
  - rewrite bind_unfold. cbn [Sigprocmask Z.eqb Pos.eqb SIG_UNBLOCK SIG_BLOCK modify ret].
    eexists. split; [reflexivity|].
    cbn [jobs nextjid stdout sigchld_blocked killed set_sigchld_blocked].
    rewrite Hout, Hkill.
    repeat split; first [done | rewrite Hmask; apply andb_false_r | exact Hk].
Qed.

Lemma eval_launch_witness :
  ∃ s', eval ("/bin/sleep 3 &" +:+ NL) (parent_of 103) two_running = Ret Returns s' ∧
        jobs s' !! 2%nat = Some (Job 103 3 BG ("/bin/sleep 3 &" +:+ NL)) ∧
        stdout s' = stdout two_running +:+ "[3] (103) /bin/sleep 3 &" +:+ NL.
Proof.
  destruct (eval_launch two_running ("/bin/sleep 3 &" +:+ NL) true "/bin/sleep" ["3"]
              103 2) as (s' & H & Hj & _ & Hout & _).
  - vm_compute. reflexivity.
  - unfold is_builtin. intros [H|[H|[H|H]]]; discriminate.
  - apply first_slot_lowest_free. eexists. vm_compute. reflexivity.
  - apply (Forall_forall (λ job, job_pid job ≠ 103)). vm_compute.
    repeat (apply Forall_cons; split; [discriminate|]). by apply Forall_nil.
  - reflexivity.
  - exists s'. split; [exact H|]. rewrite Hj, Hout. split; reflexivity.
Defined.

(** * Further properties of bg and fg *)

(** do_bgfg, once its argument has named a job, is its last statement. *)
Lemma do_bgfg_found (cmd arg : string) (o : os) (s : shell) (i : nat) (job : job_t) :
  names (jobs s) arg i job →
  do_bgfg [cmd; arg] o s =
    bgfg_resume (bool_decide ([cmd; arg] !! 0%nat = Some "bg")) (Some i)
                (if starts_with "%"%char arg then job_jid job else job_pid job)
                (job_pid job) o s.
Proof.
  intros [Hi [(text & -> & Hn & Hfound)|(Hs & Hn & Hfound)]]; unfold do_bgfg;
    cbn [lookup list_lookup starts_with plus1].
  - apply getjobjid_Some in Hfound as Hpos. destruct Hpos as (_ & _ & _ & Hpos).
    rewrite bool_decide_eq_true_2 by done. rewrite Hn.
    rewrite (proj2 (Z.eqb_neq (job_jid job) 0)) by lia.
    rewrite andb_false_r. cbn [andb orb negb]. cbv zeta.
    rewrite bind_unfold. cbn [get]. rewrite Hfound.
    rewrite bind_unfold. unfold load at 1. cbn [mbind option_bind]. by rewrite Hi.
  - apply getjobpid_Some in Hfound as Hpos. destruct Hpos as (_ & _ & _ & Hpos).
    rewrite Hs, Hn. rewrite (proj2 (Z.eqb_neq (job_pid job) 0)) by lia.
    rewrite andb_false_r. cbn [andb orb negb]. cbv zeta.
    rewrite bind_unfold. cbn [get]. rewrite Hfound.
    rewrite bind_unfold. unfold load at 1. cbn [mbind option_bind]. by rewrite Hi.
Qed.

Ltac bgfg_run Hi Hlt :=
  cbv [mbind M_bind bind mret M_ret ret get modify printf store_state load Kill exit
       unix_error kill_ans option_bind jobs nextjid verbose errno sigchld_blocked stdout
       killed set_jobs set_nextjid set_errno set_sigchld_blocked put record_kill];
  rewrite Hi; cbv beta iota; rewrite ?list_lookup_insert_eq by exact Hlt;
  cbv beta iota.

(** With nothing in between, the statements after the lookup are what
    do_bgfg does when the lookup finds the job; when it finds none, do_bgfg
    writes nothing but its message. *)
Lemma bgfg_resume_statements (is_BG by_jid : bool) (n : Z) (i : nat) (o : os) (s : shell) :
  (job ← load (Some i);
   bgfg_resume is_BG (Some i) (if by_jid then n else job_pid job)
               (if by_jid then job_pid job else n) o) s
  = bgfg_from 4 (BgfgFound is_BG by_jid n i) o s.
Proof.
  destruct s as [js nx v e b out kl], o as [f x k d]. unfold bgfg_resume.
  destruct (js !! i) as [job|] eqn:Hi.
  - pose proof (lookup_lt_Some _ _ _ Hi) as Hlt.
    destruct by_jid, is_BG, k as [e'|]; try destruct (negb (e' =? ESRCH)) eqn:He;
      cbv [bgfg_from bgfg_next mbind M_bind bind mret M_ret ret get modify printf
           store_state load Kill exit unix_error kill_ans option_bind jobs nextjid
           verbose errno sigchld_blocked stdout killed set_jobs set_nextjid set_errno
           set_sigchld_blocked put record_kill];
      repeat (first [rewrite Hi | rewrite He | rewrite list_lookup_insert_eq by exact Hlt];
              cbv beta iota);
      reflexivity.
  - cbv [bgfg_from bgfg_next mbind M_bind bind load option_bind jobs]. by rewrite Hi.
Qed.

Lemma do_bgfg_statements (argv : list string) (o : os) (s : shell) (p : bgfg_point) :
  bgfg_find argv s = Some p → do_bgfg argv o s = bgfg_from 4 p o s.
Proof.
  unfold bgfg_find, do_bgfg. cbv zeta.
  generalize (bool_decide (argv !! 0%nat = Some "bg")). intros is_BG.
  destruct (argv !! 1%nat) as [arg|]; [|done].
  destruct (_ || _); [done|].
  rewrite bind_unfold. cbn [get].
  destruct (starts_with "%"%char arg).
  - destruct (getjobjid (jobs s) (atoi (plus1 arg))) as [i|]; [|done].
    intros [= <-]. exact (bgfg_resume_statements is_BG true (atoi (plus1 arg)) i o s).
  - destruct (getjobpid (jobs s) (atoi arg)) as [i|]; [|done].
    intros [= <-]. exact (bgfg_resume_statements is_BG false (atoi arg) i o s).
Qed.

Lemma do_bgfg_not_found (argv : list string) (o : os) (s : shell) :
  bgfg_find argv s = None →
  ∃ msg, do_bgfg argv o s = Ret Returns (put msg s).
Proof.
  unfold bgfg_find, do_bgfg. cbv zeta.
  generalize (bool_decide (argv !! 0%nat = Some "bg")). intros is_BG.
  destruct (argv !! 1%nat) as [arg|]; [|destruct is_BG; by eexists].
  destruct (_ || _); [destruct is_BG; by eexists|].
  rewrite bind_unfold. cbn [get].
  destruct (starts_with "%"%char arg).
  - destruct (getjobjid (jobs s) (atoi (plus1 arg))) as [i|]; [done|]. by eexists.
  - destruct (getjobpid (jobs s) (atoi arg)) as [i|]; [done|]. by eexists.
Qed.







(** * The numbers the shell prints, read back by atoi *)

Lemma digit_pretty_N_char (d : N) :
  (d < 10)%N → digit (pretty_N_char d) = Some (Z.of_N d).
Proof.
  intros Hd.
  assert (d = 0 ∨ d = 1 ∨ d = 2 ∨ d = 3 ∨ d = 4 ∨ d = 5 ∨ d = 6 ∨ d = 7 ∨ d = 8 ∨ d = 9)%N
    as Hcases by lia.
  repeat (destruct Hcases as [-> | Hcases]; [reflexivity|]). by subst d.
Qed.

(** The digits of [x], written before [s], are read as [x] and shift what
    was read before them. *)
Lemma digits_pretty_N_go (x : N) :
  ∀ s, ∃ k : nat, ∀ a,
    digits a (pretty_N_go x s) = digits (a * 10 ^ Z.of_nat k + Z.of_N x) s.
Proof.
  induction (N.lt_wf_0 x) as [x _ IH]. intros s.
  assert (x = 0 ∨ 0 < x)%N as [-> | Hx] by lia.
  - exists 0%nat. intros a. rewrite pretty_N_go_0. f_equal. lia.
  - rewrite pretty_N_go_step by done.
    destruct (IH (x `div` 10)%N) with (s := String (pretty_N_char (x `mod` 10)) s) as [k Hk].
    { apply N.div_lt; lia. }
    exists (S k). intros a. rewrite Hk. cbn [digits].
    rewrite digit_pretty_N_char by (apply N.mod_lt; lia).
    f_equal. rewrite Nat2Z.inj_succ, Z.pow_succ_r by lia.
    rewrite N2Z.inj_div, N2Z.inj_mod.
    pose proof (Z.div_mod (Z.of_N x) 10). lia.
Qed.

Lemma pretty_N_go_head (x : N) :
  ∀ s, (0 < x)%N → ∃ d rest, (d < 10)%N ∧ pretty_N_go x s = String (pretty_N_char d) rest.
Proof.
  induction (N.lt_wf_0 x) as [x _ IH]. intros s Hx.
  rewrite pretty_N_go_step by done.
  destruct (decide (x `div` 10 = 0)%N) as [-> | Hdiv].
  - rewrite pretty_N_go_0. exists (x `mod` 10)%N, s. split; [|done]. apply N.mod_lt. lia.
  - apply IH; [apply N.div_lt; lia | by apply N.neq_0_lt_0].
Qed.

Lemma digit_head (d : N) (rest : string) :
  (d < 10)%N →
  strtol (String (pretty_N_char d) rest)
  = Z.max (- 2 ^ 63) (Z.min (2 ^ 63 - 1) (digits 0 (String (pretty_N_char d) rest))) ∧
  starts_with "%"%char (String (pretty_N_char d) rest) = false.
Proof.
  intros Hd.
  assert (d = 0 ∨ d = 1 ∨ d = 2 ∨ d = 3 ∨ d = 4 ∨ d = 5 ∨ d = 6 ∨ d = 7 ∨ d = 8 ∨ d = 9)%N
    as Hcases by lia.
  repeat (destruct Hcases as [-> | Hcases]; [by split|]). by subst d.
Qed.

(** The powers of two of the bounds, as numerals. *)
Ltac bounds :=
  change (2 ^ 31) with 2147483648 in *;
  change (2 ^ 32) with 4294967296 in *;
  change (2 ^ 63) with 9223372036854775808 in *.

Lemma to_int_small (n : Z) : - 2 ^ 31 ≤ n < 2 ^ 31 → to_int n = n.
Proof. intros Hn. unfold to_int. bounds. rewrite Z.mod_small; lia. Qed.




(** atoi stops at the first character that is not a digit. *)
Lemma pretty_N_go_app (x : N) :
  ∀ s text, pretty_N_go x s +:+ text = pretty_N_go x (s +:+ text).
Proof.
  induction (N.lt_wf_0 x) as [x _ IH]. intros s text.
  assert (x = 0 ∨ 0 < x)%N as [-> | Hx] by lia.
  - by rewrite !pretty_N_go_0.
  - rewrite (pretty_N_go_step x s), (pretty_N_go_step x (s +:+ text)) by done.
    rewrite IH; [reflexivity|]. apply N.div_lt; lia.
Qed.

Lemma digits_stop (a : Z) (text : string) : no_digit_first text → digits a text = a.
Proof. destruct text as [|c text]; [done|]. cbn [no_digit_first digits]. by intros ->. Qed.

Lemma atoi_dec_then (n : Z) (text : string) :
  0 < n < 2 ^ 31 → no_digit_first text →
  atoi (dec n +:+ text) = n ∧ starts_with "%"%char (dec n +:+ text) = false.
Proof.
  intros Hn Htext. unfold atoi, dec, pretty, pretty_Z.
  destruct n as [|p|p]; [lia| |lia].
  unfold pretty, pretty_positive, pretty, pretty_N. rewrite decide_False by done.
  rewrite pretty_N_go_app. change ("" +:+ text) with text.
  destruct (pretty_N_go_head (N.pos p) text) as (d & rest & Hd & Hshape); [lia|].
  destruct (digits_pretty_N_go (N.pos p) text) as [k Hk].
  rewrite Hshape. destruct (digit_head d rest Hd) as [-> ->]. split; [|done].
  rewrite <- Hshape, Hk, digits_stop by done. rewrite Z.mul_0_l.
  rewrite to_int_small; bounds; lia.
Qed.




(** ** bg and fg on an argument that is not a number *)

Lemma number_then_text_names (js : list job_t) (arg text : string) (i : nat) (job : job_t) :
  js !! i = Some job →
  no_digit_first text →
  (arg = "%" +:+ dec (job_jid job) +:+ text ∧
   getjobjid js (job_jid job) = Some i ∧ job_jid job < 2 ^ 31) ∨
  (arg = dec (job_pid job) +:+ text ∧
   getjobpid js (job_pid job) = Some i ∧ job_pid job < 2 ^ 31) →
  names js arg i job.
Proof.
  intros Hi Htext Harg. split; [done|].
  destruct Harg as [(-> & Hfound & Hsmall) | (-> & Hfound & Hsmall)].
  - left. exists (dec (job_jid job) +:+ text). split; [done|]. split; [|done].
    apply getjobjid_Some in Hfound as (_ & _ & _ & Hpos). by apply atoi_dec_then.
  - right. apply getjobpid_Some in Hfound as Hpos. destruct Hpos as (_ & _ & _ & Hpos).
    destruct (atoi_dec_then (job_pid job) text) as [Hn Hs]; done.
Qed.

(** C8 (the code departs from it).  The validation of bg and fg is
    [atoi(argument) == 0]; atoi reads the digits an argument starts with and
    drops the rest, so an argument that is the job id or the pid of a job
    followed by any text that does not start with a digit -- [4242abc],
    [%1.5] -- passes as that number.  do_bgfg then prints no error message:
    it changes the state of that job and sends SIGCONT to its process
    group. *)
Theorem bgfg_accepts_trailing_text
    (s : shell) (cmd arg text : string) (o : os) (i : nat) (job : job_t) :
  jobs s !! i = Some job →
  text ≠ "" → no_digit_first text →
  (arg = "%" +:+ dec (job_jid job) +:+ text ∧
   getjobjid (jobs s) (job_jid job) = Some i ∧ job_jid job < 2 ^ 31) ∨
  (arg = dec (job_pid job) +:+ text ∧
   getjobpid (jobs s) (job_pid job) = Some i ∧ job_pid job < 2 ^ 31) →
  kill_ans o = None →
  ∃ s', do_bgfg [cmd; arg] o s
        = Ret (if bool_decide (cmd = "bg") then Returns else Waitfg (job_pid job)) s' ∧
        jobs s' = <[i:=with_state (if bool_decide (cmd = "bg") then BG else FG) job]> (jobs s) ∧
        killed s' = killed s ++ [(- job_pid job, SIGCONT)].
Proof.
  intros Hi _ Htext Harg Hkill.
  pose proof (number_then_text_names (jobs s) arg text i job Hi Htext Harg) as Hnames.
  rewrite (do_bgfg_found cmd arg o s i job Hnames).
  pose proof (lookup_lt_Some _ _ _ Hi) as Hlt.
  assert (bool_decide ([cmd; arg] !! 0%nat = Some "bg") = bool_decide (cmd = "bg")) as ->.
  { apply bool_decide_ext. cbn. naive_solver. }
  destruct o as [f x k d], s as [js n v er b out kl]. cbn [kill_ans jobs] in *. subst k.
  unfold bgfg_resume.
  destruct (bool_decide (cmd = "bg")); bgfg_run Hi Hlt;
    eexists; (split; [reflexivity|]); done.
Qed.

Lemma bgfg_accepts_trailing_text_witness :
  ∃ s', do_bgfg ["bg"; "4242abc"] quiet one_stopped = Ret Returns s' ∧
        jobs s' !! 0%nat = Some (Job 4242 1 BG ("sleep 60" +:+ NL)) ∧
        killed s' = [(-4242, SIGCONT)].
Proof.
  destruct (bgfg_accepts_trailing_text one_stopped "bg" "4242abc" "abc" quiet 0
              (Job 4242 1 ST ("sleep 60" +:+ NL))) as (s' & H & Hj & Hk).
  - reflexivity.
  - discriminate.
  - reflexivity.
  - right. split; [vm_compute; reflexivity|]. split; reflexivity.
  - reflexivity.
  - exists s'. split; [exact H|]. rewrite Hj, Hk. split; reflexivity.
Defined.

(** * Further properties of waitfg and the signal handlers *)

(** X19.  The loop test of waitfg(pid), with the pointer that getjobpid
    answered on entry.  When fgpid answers 0 -- no slot is in state FG, or
    the first such slot is a cleared one -- the loop ends, whether pid is in
    the job list or not.  Otherwise the test reads the state of the job of
    pid: the loop goes on unless that job is stopped.  And when pid is not in
    the job list while fgpid does not answer 0 -- the job was deleted before
    waitfg was entered, and some job is in state FG -- the test reads
    through the NULL pointer and the shell faults. *)
Theorem waitfg_test_spec (pid : Z) (s : shell) :
  (fgpid (jobs s) = 0 → waitfg_test (waitfg_enter pid s) s = Ret false s) ∧
  (fgpid (jobs s) ≠ 0 → getjobpid (jobs s) pid = None →
   waitfg_test (waitfg_enter pid s) s = Fault s) ∧
  (∀ i job, fgpid (jobs s) ≠ 0 → getjobpid (jobs s) pid = Some i →
            jobs s !! i = Some job →
            waitfg_test (waitfg_enter pid s) s = Ret (negb (job_state job =? ST)) s).
Proof.
  unfold waitfg_test, waitfg_enter. rewrite bind_unfold. cbn [get].
  split; [|split].
  - intros ->. reflexivity.
  - intros Hfg ->. rewrite (proj2 (Z.eqb_neq _ _) Hfg). reflexivity.
  - intros i job Hfg -> Hi. rewrite (proj2 (Z.eqb_neq _ _) Hfg).
    rewrite bind_unfold. unfold load. cbn [mbind option_bind]. by rewrite Hi.
Qed.

(** The running shell reaches the state in which waitfg faults: with job 3
    left in state FG by the interrupted [fg %2], a foreground launch whose
    child exits before eval unblocks SIGCHLD enters waitfg for a pid that
    is not in the job list any more. *)
Lemma waitfg_test_spec_witness :
  reachable (InWaitfg 104 None, crash_2) ∧
  waitfg_test (waitfg_enter 104 crash_2) crash_2 = Fault crash_2.
Proof.
  split.
  - destruct stale_fg_reachable as [v Hrun]. exists v.
    etrans; [exact Hrun|].
    eapply rtc_l.
    { apply (step_eval_returns ("b &" +:+ NL) (parent_of 103) race_9 crash_1);
        [fresh_pid 103 | run]. }
    eapply rtc_l.
    { apply (step_eval_waits ("c" +:+ NL) gone_at_unblock crash_1 crash_2 104); [|run].
      unfold fresh. cbn [gone_at_unblock fork_ans].
      apply (Forall_forall (λ job, job_pid job ≠ 104)). vm_compute.
      repeat (apply Forall_cons; split; [discriminate|]). by apply Forall_nil. }
    apply rtc_once. apply (step_waitfg_enters 104 crash_2).
  - apply (proj1 (proj2 (waitfg_test_spec 104 crash_2))); [vm_compute; discriminate|reflexivity].
Defined.




Ltac reap_run :=
  cbv [mbind M_bind bind mret M_ret ret get modify printf when
       jobs nextjid verbose errno sigchld_blocked stdout killed
       set_jobs set_nextjid set_errno set_sigchld_blocked put record_kill
       WIFSTOPPED WIFSIGNALED WIFEXITED WSTOPSIG WTERMSIG].

(** The body of the loop, for a child that is in the job list. *)
Lemma reap_found (s : shell) (pid : Z) (status : wstatus) (i : nat) (job : job_t) :
  getjobpid (jobs s) pid = Some i →
  jobs s !! i = Some job →
  verbose s = false →
  ∃ s', reap pid status s = Ret () s' ∧ verbose s' = false ∧
        match status with
        | Stopped sig =>
            jobs s' = <[i:=with_state ST job]> (jobs s) ∧ nextjid s' = nextjid s ∧
            stdout s' = stdout s +:+ "Job [" +:+ dec (job_jid job) +:+ "] (" +:+ dec pid +:+
                        ") stopped by signal " +:+ dec sig +:+ " " +:+ NL
        | Signaled sig =>
            jobs s' = <[i:=Job 0 0 UNDEF ""]> (jobs s) ∧ nextjid s' = maxjid (jobs s') + 1 ∧
            stdout s' = stdout s +:+ "Job [" +:+ dec (job_jid job) +:+ "] (" +:+ dec pid +:+
                        ") terminated by signal " +:+ dec sig +:+ " " +:+ NL
        | Exited _ =>
            jobs s' = <[i:=Job 0 0 UNDEF ""]> (jobs s) ∧ nextjid s' = maxjid (jobs s') + 1 ∧
            stdout s' = stdout s
        end.
Proof.
  intros Hg Hi Hv.
  assert ((pid <? 1) = false ∧ first_slot job_pid pid (jobs s) = Some (i, job)) as [Hlt Hf].
  { unfold getjobpid in Hg. destruct (pid <? 1); [done|]. split; [done|].
    destruct (first_slot job_pid pid (jobs s)) as [[k y]|] eqn:Hf; [|done].
    injection Hg as ->. apply first_slot_Some in Hf as (Hk & _). congruence. }
  assert (pid2jid (jobs s) pid = job_jid job) as Hjid.
  { unfold pid2jid. by rewrite Hlt, Hf. }
  destruct s as [js n v e b out kl]. cbn [jobs verbose] in *. subst v.
  unfold reap. reap_run. rewrite Hg, Hjid.
  destruct status as [sig|sig|code]; reap_run.
  - unfold store_state. reap_run. rewrite Hi. eexists. split; [reflexivity|]. done.
  - unfold deletejob. reap_run. rewrite Hlt, Hf. eexists. split; [reflexivity|]. done.
  - unfold deletejob. reap_run. rewrite Hlt, Hf. eexists. split; [reflexivity|]. done.
Qed.

(** The body of the loop, for a child that is not in the job list. *)
Lemma reap_absent (s : shell) (pid : Z) (status : wstatus) :
  getjobpid (jobs s) pid = None →
  verbose s = false →
  match status with
  | Stopped _ => reap pid status s = Fault s
  | Signaled sig =>
      reap pid status s =
        Ret () (put ("Job [0] (" +:+ dec pid +:+ ") terminated by signal " +:+
                     dec sig +:+ " " +:+ NL) s)
  | Exited _ => reap pid status s = Ret () s
  end.
Proof.
  intros Hg Hv.
  assert (pid2jid (jobs s) pid = 0 ∧ deletejob pid s = Ret false s) as [Hjid Hdel].
  { unfold getjobpid in Hg. unfold pid2jid, deletejob. destruct (pid <? 1); [done|].
    by destruct (first_slot job_pid pid (jobs s)) as [[k y]|]. }
  destruct s as [js n v e b out kl]. cbn [jobs verbose] in *. subst v.
  unfold reap. reap_run. rewrite Hg, Hjid.
  destruct status as [sig|sig|code]; reap_run.
  - reflexivity.
  - by rewrite Hdel.
  - by rewrite Hdel.
Qed.

(** One turn of the loop of the handler, verbose off. *)
Lemma sigchld_handler_cons p status rest last s s' :
  verbose s = false → verbose s' = false →
  reap (Z.pos p) status s = Ret () s' →
  sigchld_handler ((p, status) :: rest) last s = sigchld_handler rest last s'.
Proof.
  intros Hv Hv' Hreap. destruct s as [js n v e b out kl], s' as [js' n' v' e' b' out' kl'].
  cbn [verbose] in *. subst v v'.
  unfold sigchld_handler. cbn [reap_all]. reap_run. by rewrite Hreap.
Qed.

(** X21.  A child in the job list whose change of state waitpid reports
    (verbose off): the handler deals with it and goes on with the children
    that follow.  When the child has stopped its job gets state ST and
    [Job [job_id] (pid) stopped by signal n] is printed; when a signal has
    ended it the job is deleted and [Job [job_id] (pid) terminated by
    signal n] is printed, with the job id the job had before it was
    deleted; when it has exited the job is deleted and nothing is printed.
    Deleting sets the counter to the largest job id left plus 1. *)
Theorem sigchld_tracked
    (s : shell) (p : positive) (status : wstatus) (i : nat) (job : job_t)
    (rest : list (positive * wstatus)) (last : wait_end) :
  getjobpid (jobs s) (Z.pos p) = Some i →
  jobs s !! i = Some job →
  verbose s = false →
  ∃ s', sigchld_handler ((p, status) :: rest) last s = sigchld_handler rest last s' ∧
        match status with
        | Stopped sig =>
            jobs s' = <[i:=with_state ST job]> (jobs s) ∧ nextjid s' = nextjid s ∧
            stdout s' = stdout s +:+ "Job [" +:+ dec (job_jid job) +:+ "] (" +:+
                        dec (Z.pos p) +:+ ") stopped by signal " +:+ dec sig +:+ " " +:+ NL
        | Signaled sig =>
            jobs s' = <[i:=Job 0 0 UNDEF ""]> (jobs s) ∧ nextjid s' = maxjid (jobs s') + 1 ∧
            stdout s' = stdout s +:+ "Job [" +:+ dec (job_jid job) +:+ "] (" +:+
                        dec (Z.pos p) +:+ ") terminated by signal " +:+ dec sig +:+ " " +:+ NL
        | Exited _ =>
            jobs s' = <[i:=Job 0 0 UNDEF ""]> (jobs s) ∧ nextjid s' = maxjid (jobs s') + 1 ∧
            stdout s' = stdout s
        end.
Proof.
  intros Hg Hi Hv.
  destruct (reap_found s (Z.pos p) status i job Hg Hi Hv) as (s' & Hreap & Hv' & Hs').
  exists s'. split; [|done]. by apply sigchld_handler_cons.
Qed.

Lemma sigchld_tracked_witness :
  ∃ s', sigchld_handler [(201%positive, Signaled 2)] (WaitFailed ECHILD) launched_two
        = sigchld_handler [] (WaitFailed ECHILD) s' ∧
        jobs s' !! 1%nat = Some (Job 0 0 UNDEF "") ∧ nextjid s' = 2 ∧
        stdout s' = stdout launched_two +:+ "Job [2] (201) terminated by signal 2 " +:+ NL.
Proof.
  destruct (sigchld_tracked launched_two 201 (Signaled 2) 1 (Job 201 2 FG ("vi" +:+ NL))
              [] (WaitFailed ECHILD))
    as (s' & H & Hj & Hn & Hout); [reflexivity..|].
  exists s'. split; [exact H|]. rewrite Hn, Hj, Hout. repeat split; reflexivity.
Defined.

(** X22.  A child that is not in the job list (verbose off): when waitpid
    reports that it has stopped, the handler writes through the NULL
    pointer that getjobpid answers, and the shell faults there; when a
    signal has ended it the handler prints the message with job id 0 and
    goes on; when it has exited the handler goes on with nothing changed. *)
Theorem sigchld_untracked
    (s : shell) (p : positive) (status : wstatus)
    (rest : list (positive * wstatus)) (last : wait_end) :
  getjobpid (jobs s) (Z.pos p) = None →
  verbose s = false →
  sigchld_handler ((p, status) :: rest) last s =
    match status with
    | Stopped _ => Fault s
    | Signaled sig =>
        sigchld_handler rest last
          (put ("Job [0] (" +:+ dec (Z.pos p) +:+ ") terminated by signal " +:+
                dec sig +:+ " " +:+ NL) s)
    | Exited _ => sigchld_handler rest last s
    end.
Proof.
  intros Hg Hv. pose proof (reap_absent s (Z.pos p) status Hg Hv) as Hreap.
  destruct status as [sig|sig|code].
  - destruct s as [js n v e b out kl]. cbn [verbose] in Hv. subst v.
    unfold sigchld_handler. cbn [reap_all]. reap_run. by rewrite Hreap.
  - apply sigchld_handler_cons; [done | by destruct s | done].
  - by apply sigchld_handler_cons.
Qed.

Lemma sigchld_untracked_witness :
  sigchld_handler [(999%positive, Stopped 20)] NoChange launched_two = Fault launched_two.
Proof.
  apply (sigchld_untracked launched_two 999 (Stopped 20) [] NoChange); reflexivity.
Defined.

(** * The shell after a refused launch *)

Lemma mask_ret {A} (a : A) : keeps_mask (ret a).
Proof. intros s b s' H. by injection H as _ <-. Qed.

Lemma mask_exit {A} (code : Z) : keeps_mask (@exit A code).
Proof. by intros s b s' H. Qed.

Lemma mask_printf text : keeps_mask (printf text).
Proof. intros s b s' H. by inversion H. Qed.

Lemma mask_set_errno e : keeps_mask (modify (set_errno e)).
Proof. intros s b s' H. by inversion H. Qed.

Lemma mask_bind {A B} (m : M A) (k : A → M B) :
  keeps_mask m → (∀ a, keeps_mask (k a)) → keeps_mask (m ≫= k).
Proof.
  intros Hm Hk s b s' (a & s1 & H1 & H2)%bind_Ret.
  rewrite (Hk a s1 b s' H2). by eapply Hm.
Qed.

Lemma mask_get {B} (k : shell → M B) :
  (∀ s, keeps_mask (k s)) → keeps_mask (get ≫= k).
Proof. intros Hk. apply mask_bind; [|done]. intros s a s' H. by injection H as _ <-. Qed.

Lemma mask_when b m : keeps_mask m → keeps_mask (when b m).
Proof. destruct b; [done|]. intros _. apply mask_ret. Qed.

Lemma mask_unix_error {A} msg : keeps_mask (@unix_error A msg).
Proof.
  apply mask_get. intros s. apply mask_bind; [apply mask_printf|].
  intros _. apply mask_exit.
Qed.

Lemma mask_Kill pid signum r : keeps_mask (Kill pid signum r).
Proof.
  apply mask_bind; [by intros s b s' H; inversion H|]. intros _.
  destruct r as [e|]; [|apply mask_ret].
  apply mask_bind; [apply mask_set_errno|]. intros _.
  destruct (negb (e =? ESRCH)); [apply mask_unix_error | apply mask_ret].
Qed.

Lemma mask_listjobs : keeps_mask listjobs.
Proof. intros s b s' H. by inversion H. Qed.

Lemma mask_load jid : keeps_mask (load jid).
Proof. intros s job s' H. by apply load_Ret in H as [-> _]. Qed.

Lemma mask_store_state jid v : keeps_mask (store_state jid v).
Proof.
  intros s u s'. unfold store_state. destruct jid as [i|]; [|done].
  destruct (jobs s !! i); [|done]. intros H. by inversion H.
Qed.

Create HintDb masks.
#[global] Hint Resolve mask_ret mask_exit mask_printf mask_set_errno mask_when
  mask_unix_error mask_Kill mask_listjobs mask_load mask_store_state mask_bind mask_get : masks.

Lemma mask_bgfg_resume is_BG jid jobid pidt o :
  keeps_mask (bgfg_resume is_BG jid jobid pidt o).
Proof. unfold bgfg_resume. destruct is_BG; eauto 10 with masks. Qed.

Lemma mask_do_bgfg argv o : keeps_mask (do_bgfg argv o).
Proof.
  unfold do_bgfg. cbv zeta. generalize (bool_decide (argv !! 0%nat = Some "bg")).
  intros is_BG. pose proof mask_bgfg_resume as Hresume.
  destruct (argv !! 1%nat) as [arg|].
  2:{ destruct is_BG; eauto 10 with masks. }
  destruct (_ || _).
  { destruct is_BG; eauto 10 with masks. }
  apply mask_get. intros s. destruct (starts_with "%"%char arg).
  - destruct (getjobjid _ _); eauto 10 with masks.
  - destruct (getjobpid _ _); eauto 10 with masks.
Qed.

Lemma mask_builtin_cmd argv o : keeps_mask (builtin_cmd argv o).
Proof.
  unfold builtin_cmd. cbv zeta. pose proof (mask_do_bgfg argv o).
  destruct (bool_decide _); [apply mask_exit|].
  destruct (_ || _); [eauto with masks|].
  destruct (bool_decide _); eauto with masks.
Qed.

Lemma mask_sigint_handler sig r : keeps_mask (sigint_handler sig r).
Proof. unfold sigint_handler. eauto 12 with masks. Qed.

Lemma mask_sigtstp_handler sig r : keeps_mask (sigtstp_handler sig r).
Proof. unfold sigtstp_handler. eauto 12 with masks. Qed.

Lemma mask_waitfg_leave pid : keeps_mask (waitfg_leave pid).
Proof. unfold waitfg_leave. eauto 10 with masks. Qed.

Lemma mask_bgfg_next p o : keeps_mask (bgfg_next p o).
Proof. destruct p as [[] []| []| |[]]; cbn [bgfg_next]; eauto 10 with masks. Qed.

(** The statements of do_bgfg leave every pid in its slot. *)
Lemma bgfg_next_pids p o s r s' :
  bgfg_next p o s = Ret r s' → job_pid <$> jobs s' = job_pid <$> jobs s.
Proof.
  destruct p as [is_BG by_jid n i|is_BG i jobid pidt|is_BG i jobid pidt|is_BG i jobid pidt];
    cbn [bgfg_next]; intros H.
  - msplit. by match goal with H : load _ _ = _ |- _ => apply load_Ret in H as [-> _] end.
  - msplit. match goal with H : store_state _ _ _ = _ |- _ =>
      apply store_state_Ret in H as (k & job & _ & Hk & ->) end.
    by apply with_state_pids.
  - msplit. mkeep. by mchain.
  - destruct is_BG; msplit; [|done].
    match goal with H : load _ _ = _ |- _ => apply load_Ret in H as [-> _] end.
    mkeep. by mchain.
Qed.

(** The built-in commands leave every pid in its slot. *)
Lemma builtin_cmd_pids argv o s b s' :
  builtin_cmd argv o s = Ret b s' → job_pid <$> jobs s' = job_pid <$> jobs s.
Proof.
  unfold builtin_cmd. cbv zeta. intros H.
  destruct (bool_decide _); [done|].
  destruct (_ || _).
  { msplit. match goal with H : do_bgfg _ _ _ = _ |- _ =>
      pose proof (do_bgfg_Ret_jobs _ _ _ _ _ H) as Hj end.
    destruct Hj as [-> | (i & job & v & Hi & ->)]; [done|]. by apply with_state_pids. }
  destruct (bool_decide _); msplit; mkeep; by mchain.
Qed.

Lemma full_pids (js js' : list job_t) :
  job_pid <$> js' = job_pid <$> js →
  (∀ job, job ∈ js → occupied job) → ∀ job, job ∈ js' → occupied job.
Proof.
  intros Hpids Hfull job Hin.
  assert (job_pid job ∈ job_pid <$> js') as Hp by (by apply list_elem_of_fmap_2).
  rewrite Hpids in Hp. apply list_elem_of_fmap in Hp as (y & Hy & Hin').
  unfold occupied. rewrite Hy. by apply Hfull.
Qed.

Lemma Sigprocmask_block s s' :
  Sigprocmask SIG_BLOCK (Sigaddset Sigemptyset SIGCHLD) None s = Ret () s' →
  jobs s' = jobs s ∧ sigchld_blocked s' = true.
Proof.
  intros H. inversion H. split; [done|]. cbn [sigchld_blocked set_sigchld_blocked].
  by destruct (sigchld_blocked s).
Qed.

(** A command in a shell whose table is full and whose SIGCHLD is blocked. *)
Lemma eval_full_blocked cmdline o s r s' :
  eval cmdline o s = Ret r s' →
  (∀ job, job ∈ jobs s → occupied job) → sigchld_blocked s = true →
  job_pid <$> jobs s' = job_pid <$> jobs s ∧ sigchld_blocked s' = true.
Proof.
  unfold eval. destruct (parseline cmdline) as [bg argv].
  intros H Hfull Hb. destruct argv as [|arg0 args]; [by msplit|].
  msplit.
  match goal with H : builtin_cmd _ _ _ = _ |- _ =>
    pose proof (builtin_cmd_pids _ _ _ _ _ H) as Hpids;
    pose proof (mask_builtin_cmd _ _ _ _ _ H) as Hmask end.
  destruct a as [r'|].
  { msplit. split; [done|congruence]. }
  cbv zeta in H. msplit.
  match goal with H : Fork _ _ = _ |- _ =>
    apply Fork_Ret in H as [-> [[-> Hans]|(child & -> & Hans)]] end.
  { exfalso. cbn [Z.eqb] in *. msplit.
    destruct (execve_err o); [|discriminate]. msplit. discriminate. }
  cbn [Z.eqb] in *. msplit.
  match goal with H : Sigprocmask _ _ _ _ = _ |- _ =>
    apply Sigprocmask_block in H as [Hj1 Hb1] end.
  assert (∀ st, addjob (Z.pos child) st cmdline s1
                = Ret false (put ("Tried to create too many jobs" +:+ NL) s1)) as Hadd.
  { intros st. apply addjob_full; [done|]. rewrite Hj1. by apply (full_pids (jobs s)). }
  destruct bg; cbn [negb] in H; msplit;
    match goal with H : addjob _ _ _ _ = _ |- _ =>
      rewrite Hadd in H; injection H as <- <- end;
    msplit; cbn [jobs sigchld_blocked put]; by rewrite Hj1.
Qed.

Lemma step_full_blocked c c' :
  step c c' →
  (∀ job, job ∈ jobs c.2 → occupied job) → sigchld_blocked c.2 = true →
  job_pid <$> jobs c'.2 = job_pid <$> jobs c.2 ∧ sigchld_blocked c'.2 = true.
Proof.
  intros Hstep Hfull Hb.
  destruct Hstep as [cmdline o s s' Hfresh Heval
                    |cmdline o s s' pid Hfresh Heval
                    |cmdline bg argv s p Hparse Hcmd Hfind
                    |p o s p' s' Hnext
                    |p o s s' Hnext
                    |p o s pid s' Hnext
                    |pid s
                    |pid jid s s' Htest
                    |pid jid s s1 s' Htest Hleave
                    |f reaped last s s' Hopen Hrun
                    |f r s s' Hrun
                    |f r s s' Hrun]; cbn [fst snd] in *.
  - by eapply eval_full_blocked.
  - by eapply eval_full_blocked.
  - done.
  - by rewrite (bgfg_next_pids _ _ _ _ _ Hnext), (mask_bgfg_next _ _ _ _ _ Hnext).
  - by rewrite (bgfg_next_pids _ _ _ _ _ Hnext), (mask_bgfg_next _ _ _ _ _ Hnext).
  - by rewrite (bgfg_next_pids _ _ _ _ _ Hnext), (mask_bgfg_next _ _ _ _ _ Hnext).
  - done.
  - by apply waitfg_test_Ret in Htest as ->.
  - apply waitfg_test_Ret in Htest as ->.
    rewrite (waitfg_leave_keeps _ _ _ _ Hleave), (mask_waitfg_leave _ _ _ _ Hleave). done.
  - congruence.
  - by rewrite (sigint_handler_keeps _ _ _ _ _ Hrun), (mask_sigint_handler _ _ _ _ _ Hrun).
  - by rewrite (sigtstp_handler_keeps _ _ _ _ _ Hrun), (mask_sigtstp_handler _ _ _ _ _ Hrun).
Qed.

Lemma steps_full_blocked c c' :
  rtc step c c' →
  (∀ job, job ∈ jobs c.2 → occupied job) → sigchld_blocked c.2 = true →
  job_pid <$> jobs c'.2 = job_pid <$> jobs c.2 ∧ sigchld_blocked c'.2 = true.
Proof.
  induction 1 as [c|c c1 c' Hstep _ IH]; [done|]. intros Hfull Hb.
  destruct (step_full_blocked c c1 Hstep Hfull Hb) as [Hpids Hb1].
  destruct IH as [Hpids' Hb']; [by apply (full_pids (jobs c.2)) | done |].
  split; [congruence | done].
Qed.

(** X23.  A shell whose table is full and in which SIGCHLD is blocked --
    the state in which a refused launch leaves it -- stays so for good:
    whatever lines are typed and whatever signals arrive, the handler of
    SIGCHLD does not run, every slot keeps its pid, so that no job is ever
    deleted and every later launch is refused, and SIGCHLD is still
    blocked. *)
Theorem full_table_stays_full (f f' : flow) (s s' : shell) :
  rtc step (f, s) (f', s') →
  (∀ job, job ∈ jobs s → occupied job) →
  sigchld_blocked s = true →
  job_pid <$> jobs s' = job_pid <$> jobs s ∧ sigchld_blocked s' = true.
Proof. apply steps_full_blocked. Qed.

Lemma refused_full : ∀ job, job ∈ jobs refused → occupied job.
Proof. apply Forall_forall. vm_compute. repeat constructor; discriminate. Qed.

Lemma full_table_stays_full_witness :
  job_pid <$> jobs (after (eval ("fg %3" +:+ NL) quiet) refused) = job_pid <$> jobs refused ∧
  sigchld_blocked (after (eval ("fg %3" +:+ NL) quiet) refused) = true.
Proof.
  apply (full_table_stays_full AtPrompt (CallWaitfg 103) refused
           (after (eval ("fg %3" +:+ NL) quiet) refused)).
  - apply rtc_once. apply (step_eval_waits ("fg %3" +:+ NL) quiet).
    + exact I.
    + vm_compute. reflexivity.
  - apply refused_full.
  - reflexivity.
Defined.

(** * Job ids before the counter wraps *)







(** * The job list of the running shell *)

Lemma table_wf_insert js i old job :
  table_wf js → js !! i = Some old →
  0 ≤ job_pid job →
  (job_pid job = 0 → job_jid job = 0 ∧ job_cmdline job = "") →
  (∀ j b, js !! j = Some b → j ≠ i → occupied job → job_pid b ≠ job_pid job) →
  table_wf (<[i:=job]> js).
Proof.
  intros (Hlen & Hpos & Hfree & Huniq) Hold Hp Hf Hfresh.
  pose proof (lookup_lt_Some _ _ _ Hold) as Hlt.
  split; [by rewrite length_insert|]. split; [|split].
  - intros b [k Hk]%list_elem_of_lookup. rewrite list_lookup_insert in Hk.
    case_decide; simplify_eq; [done|]. apply Hpos, list_elem_of_lookup; eauto.
  - intros b [k Hk]%list_elem_of_lookup. rewrite list_lookup_insert in Hk.
    case_decide; simplify_eq; [done|]. apply Hfree, list_elem_of_lookup; eauto.
  - intros k l a b Hk Hl Ha Hab.
    destruct (decide (k = i)) as [->|Hki], (decide (l = i)) as [->|Hli]; [done|..].
    + rewrite list_lookup_insert_eq in Hk by done.
      rewrite list_lookup_insert_ne in Hl by done. injection Hk as <-.
      by destruct (Hfresh l b Hl Hli Ha).
    + rewrite list_lookup_insert_ne in Hk by done.
      rewrite list_lookup_insert_eq in Hl by done. injection Hl as <-.
      destruct (Hfresh k a Hk Hki); [|done]. unfold occupied in *. by rewrite <- Hab.
    + rewrite list_lookup_insert_ne in Hk, Hl by done. by eapply Huniq.
Qed.

Lemma table_wf_with_state js i old v :
  table_wf js → js !! i = Some old → table_wf (<[i:=with_state v old]> js).
Proof.
  intros Hwf Hold. pose proof Hwf as (_ & Hpos & Hfree & Huniq).
  assert (old ∈ js) as Hin by (apply list_elem_of_lookup; eauto).
  apply (table_wf_insert js i old);
    [done | done | by apply (Hpos old) | by apply (Hfree old) |].
  intros j b Hj Hne Hocc Heq. apply Hne. symmetry. by eapply (Huniq i j old b).
Qed.

Lemma table_wf_clear js i old :
  table_wf js → js !! i = Some old → table_wf (<[i:=clearjob old]> js).
Proof.
  intros Hwf Hold. apply (table_wf_insert js i old); [done | done | done | done |].
  intros j b _ _ Hocc. by destruct Hocc.
Qed.

Lemma table_ok_wf js : table_ok js → table_wf js.
Proof.
  intros (Hlen & Hc & Hpos & Huniq). split; [done|]. split; [done|]. split; [|done].
  intros job Hin H0. by rewrite (Hc job Hin H0).
Qed.

(** In a well-formed list a pid names one slot. *)
Lemma getjobpid_finds js i job :
  table_wf js → js !! i = Some job → occupied job →
  0 < job_pid job ∧ getjobpid js (job_pid job) = Some i.
Proof.
  intros (_ & Hpos & _ & Huniq) Hi Hocc. unfold getjobpid.
  assert (0 ≤ job_pid job) by (apply Hpos, list_elem_of_lookup; eauto).
  unfold occupied in Hocc. split; [lia|].
  rewrite (proj2 (Z.ltb_ge (job_pid job) 1)) by lia.
  destruct (first_slot job_pid (job_pid job) js) as [[k y]|] eqn:Hf.
  - apply first_slot_Some in Hf as (Hk & Hp & _). simpl. f_equal.
    symmetry. eapply (Huniq i k job y); done.
  - rewrite first_slot_None in Hf. destruct (Hf job); [|done].
    apply list_elem_of_lookup; eauto.
Qed.

(** ** The calls keep the job list well formed *)

Lemma wf_keeps {A} (m : M A) : keeps_table m → keeps_wf m.
Proof. intros Hm s a s' H Hwf. by rewrite (Hm s a s' H). Qed.

Lemma wf_bind {A B} (m : M A) (k : A → M B) :
  keeps_wf m → (∀ a, keeps_wf (k a)) → keeps_wf (m ≫= k).
Proof.
  intros Hm Hk s b s' (a & s1 & H1 & H2)%bind_Ret Hwf.
  eapply Hk; [done|]. by eapply Hm.
Qed.

Lemma wf_get {B} (k : shell → M B) : (∀ s, keeps_wf (k s)) → keeps_wf (get ≫= k).
Proof. intros Hk. apply wf_bind; [|done]. apply wf_keeps. intros s a s' H. by injection H as _ <-. Qed.

Lemma wf_ret {A} (a : A) : keeps_wf (ret a).
Proof. apply wf_keeps, keeps_ret. Qed.

Lemma wf_printf text : keeps_wf (printf text).
Proof. apply wf_keeps, keeps_printf. Qed.

Lemma wf_when b m : keeps_wf m → keeps_wf (when b m).
Proof. destruct b; [done|]. intros _. apply wf_ret. Qed.

Lemma wf_Kill pid signum r : keeps_wf (Kill pid signum r).
Proof. apply wf_keeps, keeps_Kill. Qed.

Lemma wf_load jid : keeps_wf (load jid).
Proof. intros s job s' H. by apply load_Ret in H as [-> _]. Qed.

Lemma wf_store_state jid v : keeps_wf (store_state jid v).
Proof.
  intros s [] s' (i & job & -> & Hi & ->)%store_state_Ret Hwf.
  by apply table_wf_with_state.
Qed.

Lemma wf_deletejob pid : keeps_wf (deletejob pid).
Proof.
  intros s b s'. unfold deletejob. destruct (pid <? 1); [by intros [= _ <-]|].
  destruct (first_slot job_pid pid (jobs s)) as [[i old]|] eqn:Hf; [|by intros [= _ <-]].
  intros [= _ <-] Hwf. apply first_slot_Some in Hf as (Hi & _).
  cbn [jobs set_jobs set_nextjid]. by apply table_wf_clear.
Qed.

Create HintDb wfs.
#[global] Hint Resolve wf_bind wf_get wf_ret wf_printf wf_when wf_Kill wf_load
  wf_store_state wf_deletejob : wfs.

Lemma wf_reap pid status : keeps_wf (reap pid status).
Proof.
  unfold reap. apply wf_get. intros s.
  destruct status; cbn [WIFSTOPPED WIFSIGNALED WIFEXITED]; eauto 20 with wfs.
Qed.

Lemma wf_reap_all reaped : keeps_wf (reap_all reaped).
Proof.
  induction reaped as [|[pid status] reaped IH]; cbn [reap_all]; [apply wf_ret|].
  apply wf_bind; [apply wf_reap|done].
Qed.

Lemma wf_sigchld_handler reaped last : keeps_wf (sigchld_handler reaped last).
Proof.
  unfold sigchld_handler. intros s u s' H Hwf. msplit.
  match goal with H : reap_all _ _ = _ |- _ => apply wf_reap_all in H end.
  destruct last; mkeep; mchain; eauto.
Qed.

Lemma wf_Sigprocmask how set pending : keeps_wf (Sigprocmask how set pending).
Proof.
  unfold Sigprocmask. destruct (how =? SIG_BLOCK).
  { intros s u s' H Hwf. by inversion H. }
  destruct (how =? SIG_UNBLOCK); [|apply wf_ret].
  apply wf_get. intros s. apply wf_bind.
  { intros s0 u s1 H Hwf. by inversion H. }
  intros _. destruct pending as [[reaped last]|]; [|apply wf_ret].
  destruct (_ && _); [apply wf_sigchld_handler | apply wf_ret].
Qed.

Lemma wf_do_bgfg argv o : keeps_wf (do_bgfg argv o).
Proof.
  intros s r s' H Hwf.
  destruct (do_bgfg_Ret_jobs _ _ _ _ _ H) as [-> | (i & job & v & Hi & ->)]; [done|].
  by apply table_wf_with_state.
Qed.

Lemma wf_builtin_cmd argv o : keeps_wf (builtin_cmd argv o).
Proof.
  unfold builtin_cmd. cbv zeta. pose proof (wf_do_bgfg argv o) as Hbgfg.
  destruct (bool_decide _); [by intros s a s' H|].
  destruct (_ || _); [eauto with wfs|].
  destruct (bool_decide _); [|apply wf_ret].
  apply wf_bind; [apply wf_keeps, keeps_listjobs | intros; apply wf_ret].
Qed.

Lemma wf_bgfg_next p o : keeps_wf (bgfg_next p o).
Proof. destruct p as [[] []| []| |[]]; cbn [bgfg_next]; eauto 10 with wfs. Qed.

(** A whole command: the pid of the new job is one that no job has. *)
Lemma eval_wf cmdline o s r s' :
  eval cmdline o s = Ret r s' → fresh o s → table_wf (jobs s) → table_wf (jobs s').
Proof.
  unfold eval. destruct (parseline cmdline) as [bg argv].
  intros H Hfresh Hwf. destruct argv as [|arg0 args]; [by msplit|].
  msplit.
  match goal with H : builtin_cmd _ _ _ = _ |- _ =>
    pose proof (wf_builtin_cmd _ _ _ _ _ H Hwf) as Hwf0;
    pose proof (builtin_cmd_pids _ _ _ _ _ H) as Hpids end.
  destruct a as [r'|]; [by msplit|].
  cbv zeta in H. msplit.
  match goal with H : Fork _ _ = _ |- _ =>
    apply Fork_Ret in H as [-> [[-> Hans]|(child & -> & Hans)]] end.
  { exfalso. cbn [Z.eqb] in *. msplit.
    destruct (execve_err o); [|discriminate]. msplit. discriminate. }
  cbn [Z.eqb] in *. msplit.
  match goal with H : Sigprocmask _ _ _ _ = _ |- _ =>
    apply Sigprocmask_block in H as [Hj1 _] end.
  assert (∀ job, job ∈ jobs s1 → job_pid job ≠ Z.pos child) as Hfresh1.
  { intros job Hin. rewrite Hj1 in Hin.
    assert (job_pid job ∈ job_pid <$> jobs s0) as Hp by (by apply list_elem_of_fmap_2).
    rewrite Hpids in Hp. apply list_elem_of_fmap in Hp as (y & -> & Hy).
    unfold fresh in Hfresh. rewrite Hans in Hfresh. by apply Hfresh. }
  rewrite <- Hj1 in Hwf0.
  assert (∀ st added s2, addjob (Z.pos child) st cmdline s1 = Ret added s2 →
                         table_wf (jobs s2)) as Hadd.
  { intros st added s2 [[_ ->] | (_ & Hpos & i & old & Hi & Hold & ->)]%addjob_Ret; [done|].
    apply (table_wf_insert _ i old); [done | done | simpl; lia | simpl; lia |].
    intros j b Hj _ _. apply Hfresh1, list_elem_of_lookup; eauto. }
  destruct bg; cbn [negb] in H; msplit;
    match goal with H : addjob _ _ _ _ = _ |- _ => apply Hadd in H end;
    match goal with H : (if ?b then _ else _) _ = _ |- _ => destruct b end;
    msplit; try done;
    match goal with H : Sigprocmask _ _ _ ?x = Ret _ _, W : table_wf (jobs ?x) |- _ =>
      pose proof (wf_Sigprocmask _ _ _ _ _ _ H W) end;
    mkeep; by mchain.
Qed.

Lemma boot_table_wf v : table_wf (jobs (boot v)).
Proof. apply table_ok_wf, boot_table_ok. Qed.

Lemma step_wf c c' : step c c' → table_wf (jobs c.2) → table_wf (jobs c'.2).
Proof.
  intros Hstep Hwf.
  destruct Hstep as [cmdline o s s' Hfresh Heval
                    |cmdline o s s' pid Hfresh Heval
                    |cmdline bg argv s p Hparse Hcmd Hfind
                    |p o s p' s' Hnext
                    |p o s s' Hnext
                    |p o s pid s' Hnext
                    |pid s
                    |pid jid s s' Htest
                    |pid jid s s1 s' Htest Hleave
                    |f reaped last s s' Hopen Hrun
                    |f r s s' Hrun
                    |f r s s' Hrun]; cbn [fst snd] in *.
  - by eapply eval_wf.
  - by eapply eval_wf.
  - done.
  - by eapply wf_bgfg_next.
  - by eapply wf_bgfg_next.
  - by eapply wf_bgfg_next.
  - done.
  - by apply waitfg_test_Ret in Htest as ->.
  - apply waitfg_test_Ret in Htest as ->.
    by rewrite (waitfg_leave_keeps _ _ _ _ Hleave).
  - by eapply wf_sigchld_handler.
  - by rewrite (sigint_handler_keeps _ _ _ _ _ Hrun).
  - by rewrite (sigtstp_handler_keeps _ _ _ _ _ Hrun).
Qed.

Lemma steps_wf c c' : rtc step c c' → table_wf (jobs c.2) → table_wf (jobs c'.2).
Proof. induction 1; eauto using step_wf. Qed.

Lemma reachable_wf c : reachable c → table_wf (jobs c.2).
Proof. intros [v Hrun]. eapply steps_wf; [done | apply boot_table_wf]. Qed.

(** X25.  In every state the running shell reaches -- also when the handler
    of SIGCHLD has run between two statements of bg or fg, or inside eval
    where it unblocks SIGCHLD -- the job list has its sixteen slots, a free
    slot has job id 0 and no command line, and every job is found by its
    pid: the pid of an occupied slot is positive and getjobpid answers that
    very slot for it, so that no two jobs share a pid.  (The state of a free
    slot need not be UNDEF.) *)
Theorem running_shell_table (f : flow) (s : shell) :
  reachable (f, s) →
  length (jobs s) = Z.to_nat MAXJOBS ∧
  (∀ job, job ∈ jobs s → job_pid job = 0 → job_jid job = 0 ∧ job_cmdline job = "") ∧
  ∀ i job, jobs s !! i = Some job → occupied job →
           0 < job_pid job ∧ getjobpid (jobs s) (job_pid job) = Some i.
Proof.
  intros Hwf%reachable_wf. cbn [snd] in Hwf.
  pose proof Hwf as (Hlen & _ & Hfree & _).
  split; [done|]. split; [done|]. intros i job Hi Hocc. by apply getjobpid_finds.
Qed.

Lemma running_shell_table_witness :
  length (jobs two_fg) = 16%nat ∧
  getjobpid (jobs two_fg) 102 = Some 2%nat.
Proof.
  destruct two_fg_reachable as [f Hreach].
  destruct (running_shell_table f two_fg Hreach) as (Hlen & _ & Hfind).
  split; [exact Hlen|].
  apply (Hfind 2%nat (Job 102 3 FG ("y &" +:+ NL))); [reflexivity|discriminate].
Defined.

(** * A launch whose child ends before eval unblocks SIGCHLD *)

(** The loop body of the handler touches neither errno nor the mask. *)
Lemma reap_fields pid status s s' :
  reap pid status s = Ret () s' →
  errno s' = errno s ∧ sigchld_blocked s' = sigchld_blocked s ∧ killed s' = killed s.
Proof.
  destruct s as [js n v e b out kl]. unfold reap, store_state, deletejob. reap_run.
  destruct status, v; cbv beta iota; repeat case_match; intros Hret; by simplify_eq.
Qed.

Lemma cleared_no_pid (js : list job_t) (i : nat) (pid : Z) :
  0 < pid → (∀ job, job ∈ js → job_pid job ≠ pid) →
  getjobpid (<[i:=Job 0 0 UNDEF ""]> js) pid = None ∧
  pid2jid (<[i:=Job 0 0 UNDEF ""]> js) pid = 0.
Proof.
  intros Hpid Hfresh.
  assert (first_slot job_pid pid (<[i:=Job 0 0 UNDEF ""]> js) = None) as Hnone.
  { apply first_slot_None. intros job [k Hk]%list_elem_of_lookup.
    rewrite list_lookup_insert in Hk. case_decide; simplify_eq; [simpl; lia|].
    apply Hfresh, list_elem_of_lookup. eauto. }
  unfold getjobpid, pid2jid. rewrite Hnone. by destruct (pid <? 1).
Qed.

(** X26.  A launch whose child has exited before eval unblocks SIGCHLD: the
    signal is pending and its handler runs inside the sigprocmask call, so
    that the job eval has just added is deleted before eval goes on.  The
    slot is cleared again, a background launch prints [0] as the job id,
    and a foreground launch goes on to waitfg(pid) with no job of that pid
    in the list.  (The shell runs without -v, the pid is one that no slot
    holds, and the waitpid that ends the handler's loop leaves errno at
    ECHILD.) *)
Theorem eval_launch_child_gone
    (s : shell) (cmdline : string) (bg : bool) (arg0 : string) (args : list string)
    (o : os) (child : positive) (code : Z) (last : wait_end) (i : nat) :
  parseline cmdline = (bg, arg0 :: args) →
  ¬ is_builtin arg0 →
  lowest_free (jobs s) i →
  (∀ job, job ∈ jobs s → job_pid job ≠ Z.pos child) →
  verbose s = false →
  fork_ans o = ForkParent child →
  chld_at_unblock o = Some ([(child, Exited code)], last) →
  match last with NoChange => errno s | WaitFailed e => e end = ECHILD →
  ∃ s', eval cmdline o s = Ret (if bg then Returns else Waitfg (Z.pos child)) s' ∧
        jobs s' = <[i:=Job 0 0 UNDEF ""]> (jobs s) ∧
        stdout s' = (if bg
                     then stdout s +:+ "[0] (" +:+ dec (Z.pos child) +:+ ") " +:+ cmdline
                     else stdout s) ∧
        sigchld_blocked s' = false ∧
        waitfg_enter (Z.pos child) s' = None.
Proof.
  intros Hparse Hn Hfree Hfresh Hv Hfork Hpending Hend. unfold eval. rewrite Hparse.
  rewrite bind_unfold, builtin_cmd_other by done. cbv zeta.
  rewrite bind_unfold. cbn [Sigprocmask Z.eqb SIG_BLOCK modify].
  rewrite bind_unfold. rewrite Hfork. cbn [Fork ret Z.eqb].
  rewrite bind_unfold. cbn [ret].
  change (bool_decide (SIGCHLD ∈ Sigaddset Sigemptyset SIGCHLD)) with true.
  rewrite orb_true_r.
  set (s1 := set_sigchld_blocked true s).
  assert (lowest_free (jobs s1) i) as Hfree1 by done.
  assert (∀ job, job ∈ jobs s1 → job_pid job ≠ Z.pos child) as Hfresh1 by done.
  set (st := if bg then BG else FG).
  destruct (addjob_inserts s1 (Z.pos child) st cmdline i)
    as (s2 & Hadd & Hj & Hnext & Hout & Hv2 & He2 & Hmask & Hkill); [done..|].
  destruct (addjob_found s1 s2 (Z.pos child) st cmdline Hadd Hfresh1)
    as (k & Hk & Hslot & Hjid).
  assert (k = i) as ->.
  { rewrite Hj in Hslot. destruct Hfree as [(old & Hold%lookup_lt_Some & _) _].
    destruct (decide (k = i)) as [|Hne]; [done|]. exfalso.
    rewrite list_lookup_insert_ne in Hslot by done.
    apply (Hfresh (Job (Z.pos child) (nextjid s1) st cmdline)); [|done].
    apply list_elem_of_lookup. eauto. }
  replace (verbose s1) with false in Hout, Hv2 by (by rewrite <- Hv).
  rewrite append_empty_r in Hout.
  set (s2' := set_sigchld_blocked false s2).
  destruct (reap_found s2' (Z.pos child) (Exited code) i
              (Job (Z.pos child) (nextjid s1) st cmdline))
    as (s3 & Hreap & Hv3 & Hj3 & Hn3 & Hout3); [done..|].
  destruct (reap_fields _ _ _ _ Hreap) as (He3 & Hm3 & Hk3).
  assert (Sigprocmask SIG_UNBLOCK (Sigaddset Sigemptyset SIGCHLD) (chld_at_unblock o) s2
          = Ret () (set_errno ECHILD s3)) as Hunblock.
  { unfold Sigprocmask. cbn [Z.eqb Pos.eqb SIG_UNBLOCK SIG_BLOCK]. rewrite Hpending.
    change (bool_decide (SIGCHLD ∈ Sigaddset Sigemptyset SIGCHLD)) with true.
    rewrite bind_unfold. cbn [get]. rewrite bind_unfold. cbn [modify negb].
    rewrite Hmask. cbn [s1 sigchld_blocked set_sigchld_blocked andb].
    fold s2'.
    rewrite (sigchld_handler_cons child (Exited code) [] last s2' s3) by done.
    rewrite sigchld_handler_end by done. cbv zeta.
    replace (match last with NoChange => errno s3 | WaitFailed e => e end) with ECHILD.
    - by rewrite decide_True by (by left).
    - rewrite <- Hend. destruct last; [|done].
      rewrite He3. cbn [s2' errno set_sigchld_blocked]. by rewrite He2. }
  assert (jobs s3 = <[i:=Job 0 0 UNDEF ""]> (jobs s)) as Hjobs.
  { rewrite Hj3. cbn [s2' jobs set_sigchld_blocked]. rewrite Hj.
    by rewrite list_insert_insert_eq. }
  destruct (cleared_no_pid (jobs s) i (Z.pos child)) as [Hgone Hjid0]; [lia | done |].
  subst st. destruct bg; cbn [negb]; rewrite bind_unfold, Hadd.
  - rewrite bind_unfold, Hunblock. rewrite bind_unfold. cbn [get].
    rewrite bind_unfold. cbn [printf modify ret].
    eexists. split; [reflexivity|].
    cbn [jobs stdout sigchld_blocked put set_errno]. rewrite Hjobs, Hjid0, Hout3, Hm3.
    unfold waitfg_enter. cbn [jobs put set_errno]. rewrite Hjobs.
    cbn [s2' stdout sigchld_blocked set_sigchld_blocked]. by rewrite Hout.
  - rewrite bind_unfold, Hunblock. cbn [ret].
    eexists. split; [reflexivity|].
    cbn [jobs stdout sigchld_blocked set_errno]. rewrite Hjobs, Hout3, Hm3.
    unfold waitfg_enter. cbn [jobs set_errno]. rewrite Hjobs.
    cbn [s2' stdout sigchld_blocked set_sigchld_blocked]. by rewrite Hout.
Qed.

Lemma eval_launch_child_gone_witness :
  ∃ s', eval ("ls &" +:+ NL)
             (Os (ForkParent 100) None None (Some ([(100%positive, Exited 0)], WaitFailed ECHILD)))
             race_2
        = Ret Returns s' ∧
        jobs s' = jobs race_2 ∧
        stdout s' = stdout race_2 +:+ "[0] (100) ls &" +:+ NL.
Proof.
  destruct (eval_launch_child_gone race_2 ("ls &" +:+ NL) true "ls" []
              (Os (ForkParent 100) None None (Some ([(100%positive, Exited 0)], WaitFailed ECHILD)))
              100 0 (WaitFailed ECHILD) 0) as (s' & H & Hj & Hout & _).
  - vm_compute. reflexivity.
  - unfold is_builtin. intros [H|[H|[H|H]]]; discriminate.
  - apply first_slot_lowest_free. eexists. vm_compute. reflexivity.
  - apply (Forall_forall (λ job, job_pid job ≠ 100)). vm_compute.
    repeat (apply Forall_cons; split; [discriminate|]). by apply Forall_nil.
  - reflexivity.
  - reflexivity.
  - reflexivity.
  - reflexivity.
  - exists s'. split; [exact H|]. rewrite Hj, Hout. split; reflexivity.
Defined.
